(** * typesafe-env: validated, frozen environment objects

    A shallow embedding of [src/index.ts] (the functions
    [defaultFormatZodError], [getDefaultEnvSource], [isClientSide],
    [createEnv] and [createSplitEnv]) together with the fragment of the
    JavaScript object model and of the schema engine they rely on.

    - [JS]   : values, ordinary objects as ordered property lists with a
               frozen flag, [Object.entries], [Object.fromEntries],
               [Object.freeze], object spread, strict-mode assignment.
    - [Zod]  : issues, [safeParse] on fixed-shape record schemas with the
               three unknown-key policies, [strict()]; every other schema
               is an opaque parsing function.
    - top level : the two entry points, written in a small monad that
               records the calls they make and carries their exceptions. *)

From Stdlib Require Import List String Ascii Bool ZArith Lia.
From Stdlib Require Import DecimalString.
Import ListNotations.

Set Warnings "-register-all".

Local Open Scope string_scope.
Local Open Scope list_scope.

(* ================================================================== *)
(** * The JavaScript fragment *)
(* ================================================================== *)

Module JS.

(** Values.  Numbers are restricted to integers; an object is its own
    enumerable string-keyed properties in enumeration order plus the
    flag set by [Object.freeze].  (Arrays, accessors, symbols, prototypes
    and the integer-keys-first enumeration rule are outside the
    fragment.) *)
Inductive value : Type :=
| VUndefined
| VNull
| VBool (b : bool)
| VNumber (n : Z)
| VString (s : string)
| VObject (frozen : bool) (props : list (string * value)).

Definition Props := list (string * value).

(** A [Record<string, unknown>] as the entry points receive it. *)
Record Obj := mkObj { frozen : bool; props : Props }.

Definition VObj (o : Obj) : value := VObject (frozen o) (props o).

Definition emptyObj : Obj := mkObj false [].

(** [o[k]] *)
Fixpoint get (k : string) (ps : Props) : option value :=
  match ps with
  | [] => None
  | (k', v) :: t => if String.eqb k k' then Some v else get k t
  end.

(** [k in o] *)
Definition has (k : string) (ps : Props) : bool :=
  match get k ps with Some _ => true | None => false end.

(** [o[k] = v] on an extensible object: overwrite in place, or append. *)
Fixpoint set (k : string) (v : value) (ps : Props) : Props :=
  match ps with
  | [] => [(k, v)]
  | (k', v') :: t =>
      if String.eqb k k' then (k, v) :: t else (k', v') :: set k v t
  end.

Definition keys (ps : Props) : list string := map fst ps.

(** [Object.entries(o)] *)
Definition Object_entries (o : Obj) : list (string * value) := props o.

(** [Object.fromEntries(es)]: a fresh, unfrozen object. *)
Definition Object_fromEntries (es : list (string * value)) : Obj :=
  mkObj false (fold_left (fun acc e => set (fst e) (snd e) acc) es []).

(** [Object.freeze(v)]: freezes an object, returns anything else as is. *)
Definition Object_freeze (v : value) : value :=
  match v with
  | VObject _ ps => VObject true ps
  | _ => v
  end.

(** [Object.isFrozen(v)]: primitives count as frozen. *)
Definition Object_isFrozen (v : value) : bool :=
  match v with
  | VObject f _ => f
  | _ => true
  end.

(** [key.startsWith(p)] *)
Definition startsWith (key p : string) : bool := String.prefix p key.

(** Truthiness of a string: only the empty one is falsy. *)
Definition truthy_string (s : string) : bool :=
  match s with
  | EmptyString => false
  | String _ _ => true
  end.

(** Decimal rendering of an index, as done by property-key conversion
    and by [Array.prototype.join]. *)
Definition index_string (n : nat) : string :=
  NilZero.string_of_uint (Nat.to_uint n).

Fixpoint chars_from (i : nat) (s : string) : Props :=
  match s with
  | EmptyString => []
  | String c s' =>
      (index_string i, VString (String c EmptyString)) :: chars_from (S i) s'
  end.

(** The own enumerable properties copied by a spread element [...v]:
    those of an object, the indexed characters of a string, none for the
    other primitives. *)
Definition own_entries (v : value) : Props :=
  match v with
  | VObject _ ps => ps
  | VString s => chars_from 0 s
  | _ => []
  end.

(** The object literal [{ ...a, ...b }]: a fresh, unfrozen object. *)
Definition spread2 (a b : value) : value :=
  VObject false
    (fold_left (fun acc e => set (fst e) (snd e) acc)
               (own_entries a ++ own_entries b) []).

(** Strict-mode assignment [target[k] = v] (module code is always
    strict): a [TypeError] on a frozen object and on a primitive,
    otherwise the object after the write. *)
Inductive AssignResult : Type :=
| Assigned (target' : value)
| TypeError.

Definition assign (target : value) (k : string) (v : value) : AssignResult :=
  match target with
  | VObject false ps => Assigned (VObject false (set k v ps))
  | _ => TypeError
  end.

(** What a caller can catch. *)
Record JsError := mkError { name : string; message : string }.

(** Well-formed objects have pairwise distinct keys. *)
Definition wf (ps : Props) : Prop := NoDup (keys ps).

End JS.

(* ================================================================== *)
(** * The schema engine *)
(* ================================================================== *)

(** The engine (the [zod] package) is an external library with no source
    under [src/]; the validator uses four things of it: the test
    [schema instanceof z.ZodObject], the method [strict()], the method
    [safeParse] and the [issues] of the error it reports.  A fixed-shape
    record schema is modelled structurally (declared keys, each with its
    field validator, and the policy for undeclared keys); field validators
    and all other schemas stay opaque functions from the input to a
    result.  Catch-all schemas, asynchronous parsing and the [__proto__]
    key are outside the fragment. *)
Module Zod.
Import JS.

(** Modelled from the spec: a field-level error, "bearing a path (possibly
    empty, meaning 'whole value') and a human-readable message"; a path
    element is a property name or an array index. *)
Inductive PathSegment : Type :=
| Key (k : string)
| Index (i : nat).

Inductive IssueCode : Type :=
| invalid_type (expected received : string)
| unrecognized_keys (ks : list string)
| custom.

Record ZodIssue := mkIssue {
  code : IssueCode;
  path : list PathSegment;
  message : string
}.

Record ZodError := mkZodError { issues : list ZodIssue }.

(** Modelled from the spec: the validation result, "either a fully-typed
    value object, or a non-empty ordered sequence of field-level errors";
    in the code [{ success: true, data }] or [{ success: false, error }]. *)
Inductive SafeParseResult : Type :=
| Success (data : value)
| Failure (error : ZodError).

Definition Validator := value -> SafeParseResult.

(** Modelled from the spec: a schema is either "a fixed-shape record
    schema" (the instances of [z.ZodObject]) or another one, "e.g. a union,
    array, or scalar"; a record schema drops, rejects or keeps the keys it
    does not declare. *)
Inductive UnknownKeys : Type := Strip | Strict | Passthrough.

Record ZodObject := mkZodObject {
  shape : list (string * Validator);
  unknownKeys : UnknownKeys
}.

Inductive ZodType : Type :=
| ZObject (o : ZodObject)
| ZOther (parse : Validator).

(** Modelled from the spec: [schema.strict()] of the schema engine, "a
    variant of that schema that additionally fails validation when the
    input contains any key not declared in the schema": the same shape with
    the policy for undeclared keys set to rejection. *)
Definition strict (o : ZodObject) : ZodObject :=
  mkZodObject (shape o) Strict.

Definition typeof_name (v : value) : string :=
  match v with
  | VUndefined => "undefined"
  | VNull => "null"
  | VBool _ => "boolean"
  | VNumber _ => "number"
  | VString _ => "string"
  | VObject _ _ => "object"
  end.

Definition quoted (k : string) : string := "'" ++ k ++ "'".

(** Modelled from the spec: the "human-readable message" the schema engine
    attaches to an issue.  The wording is the engine's own and differs
    between its versions; no statement below depends on it. *)
Definition defaultErrorMap (c : IssueCode) : string :=
  match c with
  | invalid_type expected received =>
      if String.eqb received "undefined" then "Required"
      else "Expected " ++ expected ++ ", received " ++ received
  | unrecognized_keys ks =>
      "Unrecognized key(s) in object: " ++ String.concat ", " (map quoted ks)
  | custom => "Invalid input"
  end.

Definition issue_at (p : list PathSegment) (c : IssueCode) : ZodIssue :=
  mkIssue c p (defaultErrorMap c).

Definition declared (o : ZodObject) (k : string) : bool :=
  existsb (String.eqb k) (map fst (shape o)).

(** The keys of the input that the shape does not declare. *)
Definition extraKeys (o : ZodObject) (data : Props) : list string :=
  filter (fun k => negb (declared o k)) (keys data).

Definition lookup (k : string) (data : Props) : value :=
  match get k data with
  | Some v => v
  | None => VUndefined
  end.

(** One parsed field: its key, the validator's result on [data[key]], and
    whether the key was present in the input. *)
Record Pair := mkPair {
  pair_key : string;
  pair_result : SafeParseResult;
  alwaysSet : bool
}.

Definition parseField (data : Props) (f : string * Validator) : Pair :=
  mkPair (fst f) (snd f (lookup (fst f) data)) (has (fst f) data).

Definition under (k : string) (i : ZodIssue) : ZodIssue :=
  mkIssue (code i) (Key k :: path i) (message i).

Definition pairIssues (p : Pair) : list ZodIssue :=
  match pair_result p with
  | Success _ => []
  | Failure e => map (under (pair_key p)) (issues e)
  end.

Definition pairValid (p : Pair) : bool :=
  match pair_result p with
  | Success _ => true
  | Failure _ => false
  end.

Definition is_undefined (v : value) : bool :=
  match v with
  | VUndefined => true
  | _ => false
  end.

(** The output object: a key is written when its value is defined or the
    key was present in the input. *)
Definition mergePair (final : Props) (p : Pair) : Props :=
  match pair_result p with
  | Success v =>
      if negb (is_undefined v) || alwaysSet p
      then set (pair_key p) v final
      else final
  | Failure _ => final
  end.

Definition unknownIssues (o : ZodObject) (data : Props) : list ZodIssue :=
  match unknownKeys o with
  | Strict =>
      match extraKeys o data with
      | [] => []
      | ks => [issue_at [] (unrecognized_keys ks)]
      end
  | _ => []
  end.

Definition extraPairs (o : ZodObject) (data : Props) : list Pair :=
  match unknownKeys o with
  | Passthrough =>
      map (fun k => mkPair k (Success (lookup k data)) false) (extraKeys o data)
  | _ => []
  end.

(** Modelled from the spec: validation by the schema engine of an input
    against a fixed-shape record schema, "success-with-typed-value or a
    structured list of field-level errors", "listing every failing field,
    not just the first".  Every declared field is validated; the issues are
    those of the fields in shape order, each under its key, then the one
    for undeclared keys under [Strict]; on success the output holds the
    declared keys (and, under [Passthrough], the undeclared ones). *)
Definition parseObject (o : ZodObject) (input : value) : SafeParseResult :=
  match input with
  | VObject _ data =>
      let pairs := map (parseField data) (shape o) in
      let unknown := unknownIssues o data in
      if forallb pairValid pairs && match unknown with [] => true | _ => false end
      then Success (VObject false
                      (fold_left mergePair (pairs ++ extraPairs o data) []))
      else Failure (mkZodError (flat_map pairIssues pairs ++ unknown))
  | _ =>
      Failure (mkZodError [issue_at [] (invalid_type "object" (typeof_name input))])
  end.

(** Modelled from the spec: [schema.safeParse(input)] of the schema engine,
    "validate(schema, input) -> Result<Value, ErrorList>". *)
Definition safeParse (s : ZodType) (input : value) : SafeParseResult :=
  match s with
  | ZObject o => parseObject o input
  | ZOther parse => parse input
  end.

(** A few field validators, for the examples: [z.string()], [z.number()]
    and [.optional()]. *)
Definition z_string : Validator := fun v =>
  match v with
  | VString _ => Success v
  | _ => Failure (mkZodError [issue_at [] (invalid_type "string" (typeof_name v))])
  end.

Definition z_number : Validator := fun v =>
  match v with
  | VNumber _ => Success v
  | _ => Failure (mkZodError [issue_at [] (invalid_type "number" (typeof_name v))])
  end.

Definition optional (f : Validator) : Validator := fun v =>
  match v with
  | VUndefined => Success VUndefined
  | _ => f v
  end.

(** [z.object(shape)]: undeclared keys are stripped by default. *)
Definition object (sh : list (string * Validator)) : ZodObject :=
  mkZodObject sh Strip.

End Zod.

(* ================================================================== *)
(** * Calls, exceptions and the ambient state *)
(* ================================================================== *)

Import JS Zod.

(** The globals the code probes: [window], [process.env] and
    [import.meta.env] ([None] when the global is missing or falsy).  A call
    only reads them. *)
Record World := mkWorld {
  window : value;
  process_env : option Obj;
  import_meta_env : option Obj
}.

(** The three [throw] sites that can end a call, by origin: the guard at
    the top of [createEnv], the default report after a failed validation,
    and whatever the caller's [onError] raised. *)
Inductive Raised : Type :=
| SecurityViolation
| ValidationFailure (msg : string)
| HandlerEscape (e : JsError).

(** [onError] is declared to return [never]; at run time it either raises
    or (breaking its contract) returns a value. *)
Inductive HandlerResult : Type :=
| HReturns (v : value)
| HThrows (e : JsError).

Definition Handler := ZodError -> HandlerResult.

(** The calls a run makes to its collaborators, in order. *)
Inductive Event : Type :=
| EvIsClientSide
| EvGetDefaultEnvSource
| EvEntries (source : Obj)
| EvSafeParse (finalSchema : ZodType) (input : value)
| EvOnError (error : ZodError).

Inductive Outcome (A : Type) : Type :=
| Returns (a : A)
| Throws (r : Raised).

Arguments Returns {A} a.
Arguments Throws {A} r.

(** A computation: the calls it made and how it ended. *)
Definition M (A : Type) : Type := list Event * Outcome A.

Definition ret {A} (a : A) : M A := ([], Returns a).

Definition throw {A} (r : Raised) : M A := ([], Throws r).

Definition tell (e : Event) : M unit := ([e], Returns tt).

Definition bind {A B} (m : M A) (k : A -> M B) : M B :=
  match snd m with
  | Returns a => (fst m ++ fst (k a), snd (k a))
  | Throws r => (fst m, Throws r)
  end.

Notation "x <- m ;; k" := (bind m (fun x => k))
  (at level 61, m at next level, right associativity).
Notation "m ;;; k" := (bind m (fun _ => k))
  (at level 61, right associativity).

Definition trace {A} (m : M A) : list Event := fst m.
Definition outcome {A} (m : M A) : Outcome A := snd m.

Definition nl : string := String (ascii_of_nat 10) EmptyString.

Definition security_message : string :=
  "Attempted to access server-only environment variables on the client. " ++
  "This is a security risk. Make sure server env is not imported in client code.".

(** The error object a [catch] around the call receives. *)
Definition caught (r : Raised) : JsError :=
  match r with
  | SecurityViolation => mkError "Error" security_message
  | ValidationFailure msg => mkError "Error" msg
  | HandlerEscape e => e
  end.

(* ================================================================== *)
(** * src/index.ts *)
(* ================================================================== *)

Record CreateEnvOptions := mkOptions {
  schema : ZodType;
  runtimeEnv : option Obj;
  strict : option bool;
  skipValidation : option bool;
  onError : option Handler;
  envSource : option Obj;
  clientPrefix : option string;
  isServer : option bool
}.

Definition segment_string (s : PathSegment) : string :=
  match s with
  | Key k => k
  | Index i => index_string i
  end.

Definition issue_line (i : ZodIssue) : string :=
  let path :=
    match Zod.path i with
    | [] => "(root)"
    | p => String.concat "." (map segment_string p)
    end in
  path ++ ": " ++ Zod.message i.

Definition defaultFormatZodError (error : ZodError) : string :=
  String.concat nl (map issue_line (issues error)).

Definition getDefaultEnvSource (w : World) : M Obj :=
  tell EvGetDefaultEnvSource ;;;
  match process_env w with
  | Some env => ret env
  | None =>
      match import_meta_env w with
      | Some env => ret env
      | None => ret emptyObj
      end
  end.

(** [typeof window !== "undefined" && window !== null] *)
Definition client_context (w : World) : bool :=
  match window w with
  | VUndefined => false
  | VNull => false
  | _ => true
  end.

Definition isClientSide (w : World) : M bool :=
  tell EvIsClientSide ;;; ret (client_context w).

(** [x === true] and [x === false] on an optional boolean. *)
Definition is_true (x : option bool) : bool :=
  match x with Some true => true | _ => false end.

Definition is_false (x : option bool) : bool :=
  match x with Some false => true | _ => false end.

Definition createEnv (opts : CreateEnvOptions) (w : World) : M value :=
  let strict' := match strict opts with Some b => b | None => true end in
  let skipValidation' :=
    match skipValidation opts with Some b => b | None => false end in
  (* Security: prevent server-only vars from being accessed on client *)
  violation <- (if is_true (isServer opts) then isClientSide w else ret false) ;;
  if (violation : bool) then throw SecurityViolation else
  (* Determine the source of environment variables *)
  source <- match runtimeEnv opts with
            | Some env => ret env
            | None =>
                match envSource opts with
                | Some env => ret env
                | None => getDefaultEnvSource w
                end
            end ;;
  (* Client-side filtering *)
  filteredEnv <-
    match clientPrefix opts with
    | Some prefix =>
        if truthy_string prefix then
          (* Only apply filtering on client side or when explicitly not server *)
          apply <- (client <- isClientSide w ;;
                    if (client : bool) then ret true
                    else ret (is_false (isServer opts))) ;;
          if (apply : bool) then
            tell (EvEntries source) ;;;
            ret (Object_fromEntries
                   (filter (fun e => startsWith (fst e) prefix)
                           (Object_entries source)))
          else ret source
        else ret source
    | None => ret source
    end ;;
  (* Skip validation if requested *)
  if skipValidation' then ret (VObj filteredEnv) else
  (* If schema is an object, optionally make it strict. *)
  let finalSchema :=
    match schema opts with
    | ZObject o => if strict' then ZObject (Zod.strict o) else schema opts
    | ZOther _ => schema opts
    end in
  tell (EvSafeParse finalSchema (VObj filteredEnv)) ;;;
  match safeParse finalSchema (VObj filteredEnv) with
  | Failure error =>
      match onError opts with
      | Some handler =>
          tell (EvOnError error) ;;;
          match handler error with
          | HReturns v => ret v
          | HThrows e => throw (HandlerEscape e)
          end
      | None =>
          let msg := defaultFormatZodError error in
          throw (ValidationFailure ("Invalid environment variables:" ++ nl ++ msg))
      end
  | Success data => ret (Object_freeze data)
  end.

Module Split.

Record Options := mkOptions {
  server : ZodObject;
  client : ZodObject;
  runtimeEnv : Obj;
  clientPrefix : string;
  skipValidation : option bool;
  onError : option Handler
}.

End Split.

Definition createSplitEnv (opts : Split.Options) (w : World) : M value :=
  isClient <- isClientSide w ;;
  (* Security: only validate and return client vars on client side *)
  if (isClient : bool) then
    clientEnv <- createEnv
      {| schema := ZObject (Split.client opts);
         runtimeEnv := Some (Split.runtimeEnv opts);
         strict := None;
         skipValidation := Split.skipValidation opts;
         onError := Split.onError opts;
         envSource := None;
         clientPrefix := Some (Split.clientPrefix opts);
         isServer := Some false |} w ;;
    ret clientEnv
  else
  (* Server side: validate both schemas *)
  serverEnv <- createEnv
    {| schema := ZObject (Split.server opts);
       runtimeEnv := Some (Split.runtimeEnv opts);
       strict := None;
       skipValidation := Split.skipValidation opts;
       onError := Split.onError opts;
       envSource := None;
       clientPrefix := None;
       isServer := Some true |} w ;;
  clientEnv <- createEnv
    {| schema := ZObject (Split.client opts);
       runtimeEnv := Some (Split.runtimeEnv opts);
       strict := None;
       skipValidation := Split.skipValidation opts;
       onError := Split.onError opts;
       envSource := None;
       clientPrefix := Some (Split.clientPrefix opts);
       isServer := Some false |} w ;;
  (* Merge and return *)
  ret (spread2 serverEnv clientEnv).

(* ================================================================== *)
(** * What a run of [createEnv] computes *)
(* ================================================================== *)

(** The values of [createEnv]'s local variables as functions of its
    inputs, and the calls of each of its stages.  [createEnv_unfold] below
    ties them to the function itself. *)

(** The guard's condition: [isServer === true && isClientSide()]. *)
Definition guard_violation (opts : CreateEnvOptions) (w : World) : bool :=
  is_true (isServer opts) && client_context w.

Definition default_source (w : World) : Obj :=
  match process_env w with
  | Some env => env
  | None =>
      match import_meta_env w with
      | Some env => env
      | None => emptyObj
      end
  end.

(** [source]: [runtimeEnv ?? envSource ?? getDefaultEnvSource()]. *)
Definition source_of (opts : CreateEnvOptions) (w : World) : Obj :=
  match runtimeEnv opts with
  | Some env => env
  | None =>
      match envSource opts with
      | Some env => env
      | None => default_source w
      end
  end.

(** Whether the filtering branch is taken. *)
Definition filter_applies (opts : CreateEnvOptions) (w : World) : bool :=
  match clientPrefix opts with
  | Some prefix =>
      truthy_string prefix && (client_context w || is_false (isServer opts))
  | None => false
  end.

Definition with_prefix (prefix : string) (ps : Props) : Props :=
  filter (fun e => startsWith (fst e) prefix) ps.

(** [filteredEnv] *)
Definition filteredEnv_of (opts : CreateEnvOptions) (w : World) : Obj :=
  match clientPrefix opts with
  | Some prefix =>
      if filter_applies opts w
      then Object_fromEntries (with_prefix prefix (props (source_of opts w)))
      else source_of opts w
  | None => source_of opts w
  end.

Definition strict_of (opts : CreateEnvOptions) : bool :=
  match strict opts with Some b => b | None => true end.

Definition skip_of (opts : CreateEnvOptions) : bool :=
  match skipValidation opts with Some b => b | None => false end.

(** [finalSchema] *)
Definition finalSchema_of (opts : CreateEnvOptions) : ZodType :=
  match schema opts with
  | ZObject o => if strict_of opts then ZObject (Zod.strict o) else schema opts
  | ZOther _ => schema opts
  end.

Definition report (error : ZodError) : string :=
  "Invalid environment variables:" ++ nl ++ defaultFormatZodError error.

(** How the validating stage ends. *)
Definition validated (opts : CreateEnvOptions) (w : World) : Outcome value :=
  match safeParse (finalSchema_of opts) (VObj (filteredEnv_of opts w)) with
  | Success data => Returns (Object_freeze data)
  | Failure error =>
      match onError opts with
      | Some handler =>
          match handler error with
          | HReturns v => Returns v
          | HThrows e => Throws (HandlerEscape e)
          end
      | None => Throws (ValidationFailure (report error))
      end
  end.

Definition guard_calls (opts : CreateEnvOptions) : list Event :=
  if is_true (isServer opts) then [EvIsClientSide] else [].

Definition resolve_calls (opts : CreateEnvOptions) : list Event :=
  match runtimeEnv opts, envSource opts with
  | None, None => [EvGetDefaultEnvSource]
  | _, _ => []
  end.

Definition filter_calls (opts : CreateEnvOptions) (w : World) : list Event :=
  match clientPrefix opts with
  | Some prefix =>
      if truthy_string prefix then
        EvIsClientSide ::
        (if filter_applies opts w then [EvEntries (source_of opts w)] else [])
      else []
  | None => []
  end.

Definition validate_calls (opts : CreateEnvOptions) (w : World) : list Event :=
  EvSafeParse (finalSchema_of opts) (VObj (filteredEnv_of opts w)) ::
  match safeParse (finalSchema_of opts) (VObj (filteredEnv_of opts w)) with
  | Success _ => []
  | Failure error =>
      match onError opts with
      | Some _ => [EvOnError error]
      | None => []
      end
  end.

(** The [safeParse] calls of a run, and its [onError] calls. *)
Fixpoint validations (t : list Event) : list (ZodType * value) :=
  match t with
  | [] => []
  | EvSafeParse s input :: t' => (s, input) :: validations t'
  | _ :: t' => validations t'
  end.

Fixpoint handler_calls (t : list Event) : list ZodError :=
  match t with
  | [] => []
  | EvOnError error :: t' => error :: handler_calls t'
  | _ :: t' => handler_calls t'
  end.

Fixpoint entries_reads (t : list Event) : list Obj :=
  match t with
  | [] => []
  | EvEntries source :: t' => source :: entries_reads t'
  | _ :: t' => entries_reads t'
  end.

(** The options with another [runtimeEnv], and with another
    [clientPrefix]. *)
Definition with_runtimeEnv (opts : CreateEnvOptions) (env : Obj) : CreateEnvOptions :=
  {| schema := schema opts;
     runtimeEnv := Some env;
     strict := strict opts;
     skipValidation := skipValidation opts;
     onError := onError opts;
     envSource := envSource opts;
     clientPrefix := clientPrefix opts;
     isServer := isServer opts |}.

Definition with_clientPrefix (opts : CreateEnvOptions) (p : option string) : CreateEnvOptions :=
  {| schema := schema opts;
     runtimeEnv := runtimeEnv opts;
     strict := strict opts;
     skipValidation := skipValidation opts;
     onError := onError opts;
     envSource := envSource opts;
     clientPrefix := p;
     isServer := isServer opts |}.

(** The options [createSplitEnv] passes to [createEnv] for the client
    schema and for the server schema. *)
Definition client_call (opts : Split.Options) : CreateEnvOptions :=
  {| schema := ZObject (Split.client opts);
     runtimeEnv := Some (Split.runtimeEnv opts);
     strict := None;
     skipValidation := Split.skipValidation opts;
     onError := Split.onError opts;
     envSource := None;
     clientPrefix := Some (Split.clientPrefix opts);
     isServer := Some false |}.

Definition server_call (opts : Split.Options) : CreateEnvOptions :=
  {| schema := ZObject (Split.server opts);
     runtimeEnv := Some (Split.runtimeEnv opts);
     strict := None;
     skipValidation := Split.skipValidation opts;
     onError := Split.onError opts;
     envSource := None;
     clientPrefix := None;
     isServer := Some true |}.

(** The object [o] after [o[k] = v]. *)
Definition define (k : string) (v : value) (o : Obj) : Obj :=
  mkObj (frozen o) (JS.set k v (props o)).

(* ================================================================== *)
(** * Inputs taken from the test suite and the README *)
(* ================================================================== *)

Module Fixtures.

(** [mockServerEnvironment]: [window] is [undefined]. *)
Definition server_world : World := mkWorld VUndefined None None.

(** [mockBrowserEnvironment]: [window] is [{}]. *)
Definition browser_world : World := mkWorld (VObject false []) None None.

Definition record (ps : Props) : Obj := mkObj false ps.

(** "throws when server-only env is accessed on simulated client" *)
Definition server_only : CreateEnvOptions :=
  {| schema := ZObject (object [("DATABASE_URL", z_string)]);
     runtimeEnv := Some (record [("DATABASE_URL", VString "https://db.example.com")]);
     strict := None; skipValidation := None; onError := None;
     envSource := None; clientPrefix := None; isServer := Some true |}.

(** "filters client vars by prefix on simulated client" *)
Definition client_filtered : CreateEnvOptions :=
  {| schema := ZObject (object [("VITE_API_URL", z_string)]);
     runtimeEnv := Some (record [("VITE_API_URL", VString "https://api.example.com");
                                 ("SECRET_KEY", VString "should-be-filtered")]);
     strict := Some false; skipValidation := None; onError := None;
     envSource := None; clientPrefix := Some "VITE_"; isServer := Some false |}.

(** A strict client-side call whose source holds only the prefixed key
    [VITE_X]; the key [OTHER_Y] is added to it in the statement. *)
Definition vite_only : CreateEnvOptions :=
  {| schema := ZObject (object [("VITE_X", z_string)]);
     runtimeEnv := Some (record [("VITE_X", VString "x")]);
     strict := None; skipValidation := None; onError := None;
     envSource := None; clientPrefix := Some "VITE_"; isServer := None |}.

(** Two invalid fields at once: [PORT] is not a number and
    [DATABASE_URL] is missing. *)
Definition two_invalid : CreateEnvOptions :=
  {| schema := ZObject (object [("PORT", z_number); ("DATABASE_URL", z_string)]);
     runtimeEnv := Some (record [("PORT", VString "invalid")]);
     strict := None; skipValidation := None; onError := None;
     envSource := None; clientPrefix := None; isServer := None |}.

Definition two_invalid_error : ZodError :=
  mkZodError
    [issue_at [Key "PORT"] (invalid_type "number" "string");
     issue_at [Key "DATABASE_URL"] (invalid_type "string" "undefined")].

(** "strict mode rejects unknown keys (for object schemas)" *)
Definition strict_extra : CreateEnvOptions :=
  {| schema := ZObject (object [("DATABASE_URL", z_string)]);
     runtimeEnv := Some (record [("DATABASE_URL", VString "https://example.com");
                                 ("EXTRA_KEY", VString "should fail")]);
     strict := Some true; skipValidation := None; onError := None;
     envSource := None; clientPrefix := None; isServer := None |}.

(** "skips validation when skipValidation is true" (with a non-coercing
    numeric field). *)
Definition skipped : CreateEnvOptions :=
  {| schema := ZObject (object [("PORT", z_number)]);
     runtimeEnv := Some (record [("PORT", VString "invalid")]);
     strict := None; skipValidation := Some true; onError := None;
     envSource := None; clientPrefix := None; isServer := None |}.

(** "supports custom error handler": the handler raises a [TypeError]
    carrying the first issue's message. *)
Definition raise_TypeError : Handler := fun err =>
  HThrows (mkError "TypeError"
             (match issues err with
              | i :: _ => Zod.message i
              | [] => "bad env"
              end)).

Definition custom_handler : CreateEnvOptions :=
  {| schema := ZObject (object [("PORT", z_number)]);
     runtimeEnv := Some (record [("PORT", VString "nope")]);
     strict := None; skipValidation := None; onError := Some raise_TypeError;
     envSource := None; clientPrefix := None; isServer := None |}.

Definition custom_handler_error : ZodError :=
  mkZodError [issue_at [Key "PORT"] (invalid_type "number" "string")].

(** "filters client vars by prefix" (create-split-env test): one server
    key, one prefixed client key, both present in the combined source. *)
Definition split_by_prefix : Split.Options :=
  {| Split.server := object [("SECRET_KEY", z_string)];
     Split.client := object [("NEXT_PUBLIC_API", z_string)];
     Split.runtimeEnv :=
       record [("SECRET_KEY", VString "secret");
               ("NEXT_PUBLIC_API", VString "https://api.example.com")];
     Split.clientPrefix := "NEXT_PUBLIC_";
     Split.skipValidation := None;
     Split.onError := None |}.

(** "returns frozen object" (create-split-env test) with a client schema
    that declares no key. *)
Definition split_server_only : Split.Options :=
  {| Split.server := object [("SECRET", z_string)];
     Split.client := object [];
     Split.runtimeEnv := record [("SECRET", VString "secret")];
     Split.clientPrefix := "VITE_";
     Split.skipValidation := None;
     Split.onError := None |}.

(** "non-strict mode allows unknown keys" *)
Definition non_strict_extra : CreateEnvOptions :=
  {| schema := ZObject (object [("DATABASE_URL", z_string)]);
     runtimeEnv := Some (record [("DATABASE_URL", VString "https://example.com");
                                 ("EXTRA_KEY", VString "ok")]);
     strict := Some false; skipValidation := None; onError := None;
     envSource := None; clientPrefix := None; isServer := None |}.

(** "returns frozen object to prevent mutations" *)
Definition api_key : CreateEnvOptions :=
  {| schema := ZObject (object [("API_KEY", z_string)]);
     runtimeEnv := Some (record [("API_KEY", VString "secret")]);
     strict := None; skipValidation := None; onError := None;
     envSource := None; clientPrefix := None; isServer := None |}.

(** "does not filter on server side" *)
Definition server_with_prefix : CreateEnvOptions :=
  {| schema := ZObject (object [("VITE_API_URL", z_string); ("SECRET_KEY", z_string)]);
     runtimeEnv := Some (record [("VITE_API_URL", VString "https://api.example.com");
                                 ("SECRET_KEY", VString "secret")]);
     strict := Some false; skipValidation := None; onError := None;
     envSource := None; clientPrefix := Some "VITE_"; isServer := None |}.

(** "throws if client prefix is missing from client vars" *)
Definition split_unprefixed : Split.Options :=
  {| Split.server := object [("DATABASE_URL", z_string)];
     Split.client := object [("API_URL", z_string)];
     Split.runtimeEnv :=
       record [("DATABASE_URL", VString "https://db.example.com");
               ("API_URL", VString "https://api.example.com")];
     Split.clientPrefix := "VITE_";
     Split.skipValidation := None;
     Split.onError := None |}.

(** "supports skipValidation flag" (the validators are never run). *)
Definition split_skipped : Split.Options :=
  {| Split.server := object [("DATABASE_URL", z_string)];
     Split.client := object [("VITE_API_URL", z_string)];
     Split.runtimeEnv :=
       record [("DATABASE_URL", VString "invalid-url");
               ("VITE_API_URL", VString "also-invalid")];
     Split.clientPrefix := "VITE_";
     Split.skipValidation := Some true;
     Split.onError := None |}.

(** "works with optional Bun.env values": the optional variable is
    mapped but [undefined]. *)
Definition optional_var : CreateEnvOptions :=
  {| schema := ZObject (object [("OPTIONAL_VAR", optional z_string);
                                ("REQUIRED_VAR", z_string)]);
     runtimeEnv := Some (record [("OPTIONAL_VAR", VUndefined);
                                 ("REQUIRED_VAR", VString "https://example.com/test-db")]);
     strict := Some false; skipValidation := None; onError := None;
     envSource := None; clientPrefix := None; isServer := None |}.

(** "returns frozen object" (create-split-env test), as written there. *)
Definition split_frozen : Split.Options :=
  {| Split.server := object [("SECRET", z_string)];
     Split.client := object [("VITE_PUBLIC", z_string)];
     Split.runtimeEnv :=
       record [("SECRET", VString "secret"); ("VITE_PUBLIC", VString "public")];
     Split.clientPrefix := "VITE_";
     Split.skipValidation := None;
     Split.onError := None |}.

End Fixtures.

(* ================================================================== *)
(** * The earlier [createEnv] (src/unnamed/part_002) *)
(* ================================================================== *)

(** The source file [part_002] holds [createEnv] as it was before the
    guard, the prefix filter, [skipValidation] and the freeze were added:
    [runtimeEnv] is mandatory and the parsed value is returned as is. *)
Module Part002.

Record CreateEnvOptions := mkOptions {
  schema : ZodType;
  runtimeEnv : Obj;
  strict : option bool;
  onError : option Handler
}.

Definition defaultFormatZodError (error : ZodError) : string :=
  String.concat nl
    (map (fun i =>
            let path :=
              match Zod.path i with
              | [] => "(root)"
              | p => String.concat "." (map segment_string p)
              end in
            (path ++ ": " ++ Zod.message i)%string)
         (issues error)).

Definition createEnv (opts : CreateEnvOptions) : M value :=
  let strict' := match strict opts with Some b => b | None => true end in
  (* If schema is an object, optionally make it strict. *)
  let finalSchema :=
    match schema opts with
    | ZObject o => if strict' then ZObject (Zod.strict o) else schema opts
    | ZOther _ => schema opts
    end in
  tell (EvSafeParse finalSchema (VObj (runtimeEnv opts))) ;;;
  match safeParse finalSchema (VObj (runtimeEnv opts)) with
  | Failure error =>
      match onError opts with
      | Some handler =>
          tell (EvOnError error) ;;;
          match handler error with
          | HReturns v => ret v
          | HThrows e => throw (HandlerEscape e)
          end
      | None =>
          let msg := defaultFormatZodError error in
          throw (ValidationFailure ("Invalid environment variables:" ++ nl ++ msg))
      end
  | Success data => ret data
  end.

End Part002.

(** The same call written for the current [createEnv]: the four options
    of the earlier one, the others omitted. *)
Definition of_part002 (opts : Part002.CreateEnvOptions) : CreateEnvOptions :=
  {| schema := Part002.schema opts;
     runtimeEnv := Some (Part002.runtimeEnv opts);
     strict := Part002.strict opts;
     skipValidation := None;
     onError := Part002.onError opts;
     envSource := None;
     clientPrefix := None;
     isServer := None |}.

(* ================================================================== *)
(** * test/utils.ts *)
(* ================================================================== *)

Module TestUtils.

(** A test body [() => void]: run in a world, it leaves a world (it may
    assign globals) and ends normally or by raising. *)
Definition Body := World -> World * Outcome unit.

(** [(globalThis as any).window = v] *)
Definition set_window (w : World) (v : value) : World :=
  mkWorld v (process_env w) (import_meta_env w).

(** [try { fn(); } finally { window = originalWindow; }] around
    [window = {}]. *)
Definition mockBrowserEnvironment (fn : Body) (w : World) : World * Outcome unit :=
  let originalWindow := window w in
  let w1 := set_window w (VObject false []) in
  let result := fn w1 in
  (set_window (fst result) originalWindow, snd result).

(** The same around [window = undefined]. *)
Definition mockServerEnvironment (fn : Body) (w : World) : World * Outcome unit :=
  let originalWindow := window w in
  let w1 := set_window w VUndefined in
  let result := fn w1 in
  (set_window (fst result) originalWindow, snd result).

(** [{ ...env, ...extras }] *)
Definition createRuntimeEnvWithExtras (env extras : Obj) : Obj :=
  mkObj false
    (fold_left (fun acc e => JS.set (fst e) (snd e) acc)
               (props env ++ props extras) []).

(** The body [() => { call(); }] for a call that only reads the globals:
    its value is dropped, its exception propagates. *)
Definition calling (call : World -> M value) : Body := fun w =>
  (w, match outcome (call w) with
      | Returns _ => Returns tt
      | Throws r => Throws r
      end).

End TestUtils.

(** The options with another [envSource], and with another [isServer]. *)
Definition with_envSource (opts : CreateEnvOptions) (env : option Obj) : CreateEnvOptions :=
  {| schema := schema opts;
     runtimeEnv := runtimeEnv opts;
     strict := strict opts;
     skipValidation := skipValidation opts;
     onError := onError opts;
     envSource := env;
     clientPrefix := clientPrefix opts;
     isServer := isServer opts |}.

Definition with_isServer (opts : CreateEnvOptions) (b : option bool) : CreateEnvOptions :=
  {| schema := schema opts;
     runtimeEnv := runtimeEnv opts;
     strict := strict opts;
     skipValidation := skipValidation opts;
     onError := onError opts;
     envSource := envSource opts;
     clientPrefix := clientPrefix opts;
     isServer := b |}.

(** The options without any explicit source. *)
Definition without_source (opts : CreateEnvOptions) : CreateEnvOptions :=
  {| schema := schema opts;
     runtimeEnv := None;
     strict := strict opts;
     skipValidation := skipValidation opts;
     onError := onError opts;
     envSource := None;
     clientPrefix := clientPrefix opts;
     isServer := isServer opts |}.

(** More inputs, in the style of the test suite. *)
Module Samples.

(** A split configuration whose prefix is the empty string. *)
Definition split_empty_prefix : Split.Options :=
  {| Split.server := object [("SECRET_KEY", z_string)];
     Split.client := object [("NEXT_PUBLIC_API", z_string)];
     Split.runtimeEnv :=
       Fixtures.record [("SECRET_KEY", VString "secret");
                        ("NEXT_PUBLIC_API", VString "https://api.example.com")];
     Split.clientPrefix := "";
     Split.skipValidation := Some true;
     Split.onError := None |}.

(** A split configuration with the raising handler of the test "supports
    custom error handler"; the server variable is missing. *)
Definition split_with_handler : Split.Options :=
  {| Split.server := object [("SECRET_KEY", z_string)];
     Split.client := object [("VITE_API", z_string)];
     Split.runtimeEnv := Fixtures.record [];
     Split.clientPrefix := "VITE_";
     Split.skipValidation := None;
     Split.onError := Some Fixtures.raise_TypeError |}.

(** A world whose [process.env] holds [PORT] and whose build tool injected
    another environment object. *)
Definition node_world : World :=
  mkWorld VUndefined
    (Some (Fixtures.record [("API_KEY", VString "from-process")]))
    (Some (Fixtures.record [("API_KEY", VString "from-import-meta")])).

(** The call of "returns frozen object to prevent mutations" through the
    earlier [createEnv]. *)
Definition api_key_part002 : Part002.CreateEnvOptions :=
  {| Part002.schema := ZObject (object [("API_KEY", z_string)]);
     Part002.runtimeEnv := Fixtures.record [("API_KEY", VString "secret")];
     Part002.strict := None;
     Part002.onError := None |}.

End Samples.

(** Whether every key of a property list starts with the prefix. *)
Definition all_prefixed (p : string) (ps : Props) : Prop :=
  forall k, In k (keys ps) -> startsWith k p = true.

(* ================================================================== *)
(** * Basic facts *)
(* ================================================================== *)

Arguments safeParse : simpl never.
Arguments Object_fromEntries : simpl never.

Lemma bind_returns {A B} (t : list Event) (a : A) (k : A -> M B) :
  bind (t, Returns a) k = (t ++ fst (k a), snd (k a)).
Proof. reflexivity. Qed.

Lemma bind_throws {A B} (t : list Event) (r : Raised) (k : A -> M B) :
  bind (t, Throws r) k = (t, Throws r).
Proof. reflexivity. Qed.

Section Unfolding.

Variable opts : CreateEnvOptions.
Variable w : World.

Lemma createEnv_guarded :
  guard_violation opts w = true ->
  createEnv opts w = ([EvIsClientSide], Throws SecurityViolation).
Proof.
  unfold guard_violation, createEnv. intros H.
  apply andb_true_iff in H. destruct H as [Hs Hc].
  rewrite Hs. unfold isClientSide, bind, tell, ret, throw. simpl.
  rewrite Hc. reflexivity.
Qed.

Lemma guard_stage :
  guard_violation opts w = false ->
  (if is_true (isServer opts) then isClientSide w else ret false) =
  (guard_calls opts, Returns false).
Proof.
  unfold guard_violation, guard_calls, isClientSide.
  destruct (is_true (isServer opts)); simpl; intros H.
  - rewrite H. reflexivity.
  - reflexivity.
Qed.

Lemma resolve_stage :
  match runtimeEnv opts with
  | Some env => ret env
  | None =>
      match envSource opts with
      | Some env => ret env
      | None => getDefaultEnvSource w
      end
  end = (resolve_calls opts, Returns (source_of opts w)).
Proof.
  unfold resolve_calls, source_of, getDefaultEnvSource, default_source.
  destruct (runtimeEnv opts); [reflexivity|].
  destruct (envSource opts); [reflexivity|].
  destruct (process_env w); [reflexivity|].
  destruct (import_meta_env w); reflexivity.
Qed.

Lemma filter_stage :
  match clientPrefix opts with
  | Some prefix =>
      if truthy_string prefix then
        apply <- (client <- isClientSide w ;;
                  if (client : bool) then ret true
                  else ret (is_false (isServer opts))) ;;
        if (apply : bool) then
          tell (EvEntries (source_of opts w)) ;;;
          ret (Object_fromEntries
                 (filter (fun e => startsWith (fst e) prefix)
                         (Object_entries (source_of opts w))))
        else ret (source_of opts w)
      else ret (source_of opts w)
  | None => ret (source_of opts w)
  end = (filter_calls opts w, Returns (filteredEnv_of opts w)).
Proof.
  unfold filter_calls, filteredEnv_of, filter_applies, isClientSide,
    with_prefix, Object_entries.
  destruct (clientPrefix opts) as [p|]; [|reflexivity].
  destruct (truthy_string p); [|reflexivity].
  destruct (client_context w); [reflexivity|].
  destruct (is_false (isServer opts)); reflexivity.
Qed.

Lemma validate_stage :
  (tell (EvSafeParse (finalSchema_of opts) (VObj (filteredEnv_of opts w))) ;;;
   match safeParse (finalSchema_of opts) (VObj (filteredEnv_of opts w)) with
   | Failure error =>
       match onError opts with
       | Some handler =>
           tell (EvOnError error) ;;;
           match handler error with
           | HReturns v => ret v
           | HThrows e => throw (HandlerEscape e)
           end
       | None =>
           throw (ValidationFailure
                    ("Invalid environment variables:" ++ nl ++
                     defaultFormatZodError error))
       end
   | Success data => ret (Object_freeze data)
   end) = (validate_calls opts w, validated opts w).
Proof.
  unfold validate_calls, validated, report.
  destruct (safeParse (finalSchema_of opts) (VObj (filteredEnv_of opts w)))
    as [data|error]; [reflexivity|].
  destruct (onError opts) as [h|]; [|reflexivity].
  unfold bind, tell, ret, throw. cbn [fst snd app].
  destruct (h error); reflexivity.
Qed.

Lemma createEnv_unfold :
  guard_violation opts w = false ->
  createEnv opts w =
    (guard_calls opts ++ resolve_calls opts ++ filter_calls opts w ++
       (if skip_of opts then [] else validate_calls opts w),
     if skip_of opts then Returns (VObj (filteredEnv_of opts w))
     else validated opts w).
Proof.
  intros H. unfold createEnv.
  rewrite (guard_stage H), bind_returns. cbv iota.
  rewrite resolve_stage, bind_returns.
  rewrite filter_stage, bind_returns.
  fold (skip_of opts). destruct (skip_of opts).
  - reflexivity.
  - cbv zeta. fold (strict_of opts). fold (finalSchema_of opts).
    rewrite validate_stage. reflexivity.
Qed.

End Unfolding.

(* ================================================================== *)
(** * Property lists *)
(* ================================================================== *)

Section PropsFacts.

Lemma set_fresh (k : string) (v : value) (ps : Props) :
  ~ In k (keys ps) -> JS.set k v ps = ps ++ [(k, v)].
Proof.
  induction ps as [|[k' v'] t IH]; simpl; intros Hn.
  - reflexivity.
  - destruct (String.eqb_spec k k') as [->|Hne].
    + exfalso. apply Hn. now left.
    + f_equal. apply IH. intros Hin. apply Hn. now right.
Qed.

Lemma fold_set_nodup (es acc : Props) :
  NoDup (keys (acc ++ es)) ->
  fold_left (fun a e => JS.set (fst e) (snd e) a) es acc = acc ++ es.
Proof.
  revert acc. induction es as [|[k v] t IH]; intros acc Hnd; simpl.
  - now rewrite app_nil_r.
  - assert (Hfresh : ~ In k (keys acc)).
    { unfold keys in *. rewrite map_app in Hnd. simpl in Hnd.
      apply NoDup_remove_2 in Hnd. intros Hin. apply Hnd.
      apply in_or_app. now left. }
    rewrite (set_fresh k v acc Hfresh).
    rewrite IH.
    + now rewrite <- app_assoc.
    + now rewrite <- app_assoc.
Qed.

(** On a list of entries with distinct keys [Object.fromEntries] keeps the
    entries and their order. *)
Lemma fromEntries_wf (es : Props) :
  wf es -> props (Object_fromEntries es) = es.
Proof.
  intros H. unfold Object_fromEntries. simpl.
  now rewrite (fold_set_nodup es []).
Qed.

Lemma keys_filter_incl (f : string * value -> bool) (ps : Props) (k : string) :
  In k (keys (filter f ps)) -> In k (keys ps).
Proof.
  unfold keys. rewrite !in_map_iff.
  intros [e [He Hin]]. exists e. split; [assumption|].
  apply filter_In in Hin. tauto.
Qed.

Lemma wf_filter (f : string * value -> bool) (ps : Props) :
  wf ps -> wf (filter f ps).
Proof.
  unfold wf. induction ps as [|[k v] t IH]; simpl; intros Hnd.
  - constructor.
  - inversion Hnd as [|? ? Hnotin Hnd']; subst.
    destruct (f (k, v)); simpl.
    + constructor.
      * intros Hin. apply Hnotin. exact (keys_filter_incl f t k Hin).
      * now apply IH.
    + now apply IH.
Qed.

Lemma startsWith_empty (k : string) : startsWith k "" = true.
Proof. destruct k; reflexivity. Qed.

Lemma with_prefix_empty (ps : Props) : with_prefix "" ps = ps.
Proof.
  unfold with_prefix. induction ps as [|[k v] t IH]; simpl.
  - reflexivity.
  - rewrite startsWith_empty. now rewrite IH.
Qed.

(** Writing a key that lacks the prefix does not change the filtered
    entries. *)
Lemma with_prefix_set (p k : string) (v : value) (ps : Props) :
  startsWith k p = false ->
  with_prefix p (JS.set k v ps) = with_prefix p ps.
Proof.
  intros Hk. unfold with_prefix.
  induction ps as [|[k' v'] t IH]; simpl.
  - now rewrite Hk.
  - destruct (String.eqb_spec k k') as [->|Hne]; simpl.
    + now rewrite Hk.
    + now rewrite IH.
Qed.

Lemma with_prefix_In (p : string) (ps : Props) (k : string) (v : value) :
  In (k, v) (with_prefix p ps) <-> In (k, v) ps /\ startsWith k p = true.
Proof. unfold with_prefix. now rewrite filter_In. Qed.

End PropsFacts.

(* ================================================================== *)
(** * The client/server guard *)
(* ================================================================== *)

Lemma is_true_iff (x : option bool) : is_true x = true <-> x = Some true.
Proof. destruct x as [[|]|]; simpl; split; congruence. Qed.

Lemma is_false_iff (x : option bool) : is_false x = true <-> x = Some false.
Proof. destruct x as [[|]|]; simpl; split; congruence. Qed.

Lemma guard_violation_iff (opts : CreateEnvOptions) (w : World) :
  guard_violation opts w = true <->
  isServer opts = Some true /\ client_context w = true.
Proof.
  unfold guard_violation. rewrite andb_true_iff, is_true_iff. tauto.
Qed.

Lemma validated_not_security (opts : CreateEnvOptions) (w : World) :
  validated opts w <> Throws SecurityViolation.
Proof.
  unfold validated.
  destruct (safeParse _ _) as [d|e]; [discriminate|].
  destruct (onError opts) as [h|]; [|discriminate].
  destruct (h e); discriminate.
Qed.

(** C2.  [createEnv] ends with the guard's security error exactly when
    [isServer] is [true] and the client probe answers [true] for the world
    of the call.  In that case the only call made is the probe itself: the
    default source is not resolved, no entries of a source are read, nothing
    is validated; and the error is raised whatever [skipValidation] is. *)
Theorem createEnv_security_guard (opts : CreateEnvOptions) (w : World) :
  (outcome (createEnv opts w) = Throws SecurityViolation <->
   isServer opts = Some true /\ client_context w = true) /\
  (isServer opts = Some true -> client_context w = true ->
   trace (createEnv opts w) = [EvIsClientSide]) /\
  (isServer opts = Some true -> client_context w = true ->
   skipValidation opts = Some true ->
   outcome (createEnv opts w) = Throws SecurityViolation).
Proof.
  assert (Hyes : isServer opts = Some true -> client_context w = true ->
                 createEnv opts w = ([EvIsClientSide], Throws SecurityViolation)).
  { intros Hs Hc. apply createEnv_guarded. now apply guard_violation_iff. }
  split; [split|split].
  - intros Hout.
    destruct (guard_violation opts w) eqn:Hg.
    + now apply guard_violation_iff.
    + exfalso. rewrite (createEnv_unfold opts w Hg) in Hout.
      unfold outcome in Hout. simpl in Hout.
      destruct (skip_of opts); [discriminate|].
      exact (validated_not_security opts w Hout).
  - intros [Hs Hc]. now rewrite (Hyes Hs Hc).
  - intros Hs Hc. now rewrite (Hyes Hs Hc).
  - intros Hs Hc _. now rewrite (Hyes Hs Hc).
Qed.

Lemma createEnv_security_guard_witness :
  outcome (createEnv Fixtures.server_only Fixtures.browser_world) =
    Throws SecurityViolation /\
  trace (createEnv Fixtures.server_only Fixtures.browser_world) =
    [EvIsClientSide].
Proof.
  destruct (createEnv_security_guard Fixtures.server_only Fixtures.browser_world)
    as [[_ Hraise] [Htrace _]].
  split.
  - apply Hraise. split; reflexivity.
  - apply Htrace; reflexivity.
Defined.

(* ================================================================== *)
(** * The calls of a run *)
(* ================================================================== *)

Lemma validations_app (t1 t2 : list Event) :
  validations (t1 ++ t2) = validations t1 ++ validations t2.
Proof.
  induction t1 as [|e t IH]; simpl; [reflexivity|].
  destruct e; simpl; now rewrite IH.
Qed.

Lemma handler_calls_app (t1 t2 : list Event) :
  handler_calls (t1 ++ t2) = handler_calls t1 ++ handler_calls t2.
Proof.
  induction t1 as [|e t IH]; simpl; [reflexivity|].
  destruct e; simpl; now rewrite IH.
Qed.

Lemma entries_reads_app (t1 t2 : list Event) :
  entries_reads (t1 ++ t2) = entries_reads t1 ++ entries_reads t2.
Proof.
  induction t1 as [|e t IH]; simpl; [reflexivity|].
  destruct e; simpl; now rewrite IH.
Qed.

Section Calls.

Variable opts : CreateEnvOptions.
Variable w : World.

Lemma validations_guard : validations (guard_calls opts) = [].
Proof. unfold guard_calls. now destruct (is_true (isServer opts)). Qed.

Lemma validations_resolve : validations (resolve_calls opts) = [].
Proof.
  unfold resolve_calls. now destruct (runtimeEnv opts), (envSource opts).
Qed.

Lemma validations_filter : validations (filter_calls opts w) = [].
Proof.
  unfold filter_calls. destruct (clientPrefix opts) as [p|]; [|reflexivity].
  destruct (truthy_string p); [|reflexivity].
  now destruct (filter_applies opts w).
Qed.

Lemma validations_validate :
  validations (validate_calls opts w) =
  [(finalSchema_of opts, VObj (filteredEnv_of opts w))].
Proof.
  unfold validate_calls. simpl.
  destruct (safeParse _ _) as [d|e]; [reflexivity|].
  now destruct (onError opts).
Qed.

Lemma handler_calls_guard : handler_calls (guard_calls opts) = [].
Proof. unfold guard_calls. now destruct (is_true (isServer opts)). Qed.

Lemma handler_calls_resolve : handler_calls (resolve_calls opts) = [].
Proof.
  unfold resolve_calls. now destruct (runtimeEnv opts), (envSource opts).
Qed.

Lemma handler_calls_filter : handler_calls (filter_calls opts w) = [].
Proof.
  unfold filter_calls. destruct (clientPrefix opts) as [p|]; [|reflexivity].
  destruct (truthy_string p); [|reflexivity].
  now destruct (filter_applies opts w).
Qed.

(** Without a guard violation and without [skipValidation] a run makes
    exactly one [safeParse] call: the final schema on the filtered source. *)
Lemma createEnv_validations :
  validations (trace (createEnv opts w)) =
  if guard_violation opts w || skip_of opts then []
  else [(finalSchema_of opts, VObj (filteredEnv_of opts w))].
Proof.
  destruct (guard_violation opts w) eqn:Hg.
  - now rewrite (createEnv_guarded opts w Hg).
  - rewrite (createEnv_unfold opts w Hg). unfold trace. cbn [fst orb].
    rewrite !validations_app, validations_guard, validations_resolve,
      validations_filter. cbn [app].
    destruct (skip_of opts); [reflexivity|].
    apply validations_validate.
Qed.

Lemma createEnv_validation_inv (s : ZodType) (input : value) :
  In (s, input) (validations (trace (createEnv opts w))) ->
  guard_violation opts w = false /\ skip_of opts = false /\
  s = finalSchema_of opts /\ input = VObj (filteredEnv_of opts w).
Proof.
  rewrite createEnv_validations.
  destruct (guard_violation opts w); [intros []|].
  destruct (skip_of opts); [intros []|].
  intros [Heq|[]]. inversion Heq. tauto.
Qed.

Lemma createEnv_outcome :
  guard_violation opts w = false ->
  outcome (createEnv opts w) =
  if skip_of opts then Returns (VObj (filteredEnv_of opts w))
  else validated opts w.
Proof. intros Hg. now rewrite (createEnv_unfold opts w Hg). Qed.

Lemma guard_passes :
  ~ (isServer opts = Some true /\ client_context w = true) ->
  guard_violation opts w = false.
Proof.
  intros H. destruct (guard_violation opts w) eqn:Hg; [|reflexivity].
  exfalso. apply H. now apply guard_violation_iff.
Qed.

Lemma skip_of_false : skipValidation opts <> Some true -> skip_of opts = false.
Proof.
  unfold skip_of. destruct (skipValidation opts) as [[|]|]; congruence.
Qed.

End Calls.

(* ================================================================== *)
(** * The prefix filter *)
(* ================================================================== *)

Lemma keys_set (k : string) (v : value) (ps : Props) (x : string) :
  In x (keys (JS.set k v ps)) <-> x = k \/ In x (keys ps).
Proof.
  induction ps as [|[k' v'] t IH]; simpl.
  - intuition.
  - destruct (String.eqb_spec k k') as [->|Hne]; simpl.
    + intuition.
    + rewrite IH. intuition.
Qed.

Lemma keys_fold_set (es acc : Props) (x : string) :
  In x (keys (fold_left (fun a e => JS.set (fst e) (snd e) a) es acc)) <->
  In x (keys acc) \/ In x (keys es).
Proof.
  revert acc. induction es as [|[k v] t IH]; intros acc; simpl.
  - intuition.
  - rewrite IH, keys_set. intuition.
Qed.

Lemma keys_with_prefix (p : string) (ps : Props) (x : string) :
  In x (keys (with_prefix p ps)) <-> In x (keys ps) /\ startsWith x p = true.
Proof.
  unfold keys, with_prefix. rewrite !in_map_iff. split.
  - intros [[k v] [Hk Hin]]. simpl in Hk. subst k.
    apply filter_In in Hin. destruct Hin as [Hin Hp]. split; [|exact Hp].
    exists (x, v). now split.
  - intros [[[k v] [Hk Hin]] Hp]. simpl in Hk. subst k.
    exists (x, v). split; [reflexivity|]. apply filter_In. now split.
Qed.

Lemma filteredEnv_props (opts : CreateEnvOptions) (w : World) (p : string) :
  wf (props (source_of opts w)) ->
  clientPrefix opts = Some p ->
  client_context w || is_false (isServer opts) = true ->
  props (filteredEnv_of opts w) = with_prefix p (props (source_of opts w)).
Proof.
  intros Hwf Hp Hctx. unfold filteredEnv_of, filter_applies.
  rewrite Hp, Hctx, andb_true_r.
  destruct p as [|c p']; cbn [truthy_string].
  - now rewrite with_prefix_empty.
  - apply fromEntries_wf. now apply wf_filter.
Qed.

Lemma filteredEnv_unfiltered (opts : CreateEnvOptions) (w : World) :
  filter_applies opts w = false -> filteredEnv_of opts w = source_of opts w.
Proof.
  unfold filteredEnv_of. intros H. rewrite H. now destruct (clientPrefix opts).
Qed.

(** C4.  Provided the guard lets the call through, [createEnv] validates
    (or, under [skipValidation], returns) one mapping [env] determined by
    the source and the prefix alone.  With a prefix [p] configured and the
    client probe true or [isServer] exactly [false], [env] holds exactly
    the entries of the source whose key starts with [p], in the source's
    order (for the empty prefix, which every key starts with, these are all
    the entries of the source); with a prefix configured but neither
    condition true, and with no prefix, [env] is the source itself,
    unmatched keys included. *)
Theorem createEnv_prefix_filter (opts : CreateEnvOptions) (w : World) :
  ~ (isServer opts = Some true /\ client_context w = true) ->
  wf (props (source_of opts w)) ->
  exists env : Obj,
    (skipValidation opts <> Some true ->
     validations (trace (createEnv opts w)) = [(finalSchema_of opts, VObj env)]) /\
    (skipValidation opts = Some true ->
     outcome (createEnv opts w) = Returns (VObj env)) /\
    match clientPrefix opts with
    | Some p =>
        if client_context w || is_false (isServer opts)
        then props env =
             filter (fun e => startsWith (fst e) p) (props (source_of opts w))
        else env = source_of opts w
    | None => env = source_of opts w
    end.
Proof.
  intros Hguard Hwf. apply guard_passes in Hguard.
  exists (filteredEnv_of opts w). split; [|split].
  - intros Hskip. rewrite createEnv_validations, Hguard.
    now rewrite (skip_of_false opts Hskip).
  - intros Hskip. rewrite (createEnv_outcome opts w Hguard).
    unfold skip_of. now rewrite Hskip.
  - destruct (clientPrefix opts) as [p|] eqn:Hp.
    + destruct (client_context w || is_false (isServer opts)) eqn:Hctx.
      * exact (filteredEnv_props opts w p Hwf Hp Hctx).
      * apply filteredEnv_unfiltered. unfold filter_applies.
        rewrite Hp, Hctx. apply andb_false_r.
    + apply filteredEnv_unfiltered. unfold filter_applies. now rewrite Hp.
Qed.

Lemma createEnv_prefix_filter_witness :
  exists env : Obj,
    validations (trace (createEnv Fixtures.client_filtered Fixtures.browser_world)) =
      [(finalSchema_of Fixtures.client_filtered, VObj env)] /\
    props env = [("VITE_API_URL", VString "https://api.example.com")].
Proof.
  destruct (createEnv_prefix_filter Fixtures.client_filtered Fixtures.browser_world)
    as [env [Hval [_ Hprops]]].
  - intros [H _]. discriminate H.
  - repeat constructor; simpl; intuition discriminate.
  - exists env. split.
    + apply Hval. discriminate.
    + exact Hprops.
Defined.

(** C5.  In a client context with prefix [p], writing into the source an
    entry whose key does not start with [p] changes nothing: the run ends
    the same way, the schema is given the same input, that input does not
    contain the added key (so strict mode has nothing to reject), and every
    prefixed key of the source is in it. *)
Theorem createEnv_unprefixed_entry_invisible
    (opts : CreateEnvOptions) (w : World) (p : string)
    (k : string) (v : value) :
  client_context w = true ->
  clientPrefix opts = Some p ->
  startsWith k p = false ->
  let src := source_of opts w in
  let opts' := with_runtimeEnv opts (define k v src) in
  outcome (createEnv opts' w) = outcome (createEnv opts w) /\
  validations (trace (createEnv opts' w)) =
    validations (trace (createEnv opts w)) /\
  (forall s f ps, In (s, VObject f ps) (validations (trace (createEnv opts' w))) ->
     ~ In k (keys ps) /\
     (forall k', In k' (keys (props src)) -> startsWith k' p = true ->
                 In k' (keys ps))).
Proof.
  intros Hc Hp Hk src opts'.
  assert (Htruthy : truthy_string p = true).
  { destruct p; [|reflexivity]. now rewrite startsWith_empty in Hk. }
  assert (Happ : forall o, clientPrefix o = Some p -> filter_applies o w = true).
  { intros o Ho. unfold filter_applies. now rewrite Ho, Htruthy, Hc. }
  assert (Hfilt' : filteredEnv_of opts' w =
                   Object_fromEntries (with_prefix p (props src))).
  { unfold filteredEnv_of. rewrite (Happ opts' Hp).
    change (clientPrefix opts') with (clientPrefix opts). rewrite Hp.
    change (source_of opts' w) with (define k v src). cbn [define props].
    now rewrite (with_prefix_set p k v (props src) Hk). }
  assert (Hfilt : filteredEnv_of opts w =
                  Object_fromEntries (with_prefix p (props src))).
  { unfold filteredEnv_of. now rewrite (Happ opts Hp), Hp. }
  assert (Hg' : guard_violation opts' w = guard_violation opts w)
    by reflexivity.
  assert (Hout : outcome (createEnv opts' w) = outcome (createEnv opts w)).
  { destruct (guard_violation opts w) eqn:Hg.
    - now rewrite (createEnv_guarded opts' w Hg'), (createEnv_guarded opts w Hg).
    - rewrite (createEnv_outcome opts' w Hg'), (createEnv_outcome opts w Hg).
      change (skip_of opts') with (skip_of opts). unfold validated.
      change (finalSchema_of opts') with (finalSchema_of opts).
      change (onError opts') with (onError opts).
      now rewrite Hfilt', Hfilt. }
  assert (Hval : validations (trace (createEnv opts' w)) =
                 validations (trace (createEnv opts w))).
  { rewrite !createEnv_validations, Hg'.
    change (skip_of opts') with (skip_of opts).
    change (finalSchema_of opts') with (finalSchema_of opts).
    now rewrite Hfilt', Hfilt. }
  split; [exact Hout|]. split; [exact Hval|].
  intros s f ps Hin.
  apply createEnv_validation_inv in Hin.
  destruct Hin as [_ [_ [_ Hinput]]]. rewrite Hfilt' in Hinput.
  unfold VObj in Hinput. injection Hinput as Hf Hps. rewrite Hps. split.
  - rewrite keys_fold_set, keys_with_prefix. intros [[]|[_ Hstart]].
    congruence.
  - intros k' Hin' Hstart. rewrite keys_fold_set, keys_with_prefix.
    right. now split.
Qed.

Lemma createEnv_unprefixed_entry_invisible_witness :
  outcome (createEnv (with_runtimeEnv Fixtures.vite_only
                        (define "OTHER_Y" (VString "y")
                           (Fixtures.record [("VITE_X", VString "x")])))
                     Fixtures.browser_world) =
  outcome (createEnv Fixtures.vite_only Fixtures.browser_world) /\
  outcome (createEnv Fixtures.vite_only Fixtures.browser_world) =
  Returns (VObject true [("VITE_X", VString "x")]).
Proof.
  split.
  - apply (createEnv_unprefixed_entry_invisible Fixtures.vite_only
             Fixtures.browser_world "VITE_" "OTHER_Y" (VString "y"));
      reflexivity.
  - reflexivity.
Defined.

(* ================================================================== *)
(** * Record schemas: aggregation and strictness *)
(* ================================================================== *)

Section RecordSchemas.

Variable o : ZodObject.

Lemma declared_strict (k : string) : declared (Zod.strict o) k = declared o k.
Proof. reflexivity. Qed.

Lemma extraKeys_strict (data : Props) :
  extraKeys (Zod.strict o) data = extraKeys o data.
Proof. reflexivity. Qed.

Lemma extraKeys_In (data : Props) (k : string) :
  In k (extraKeys o data) <-> In k (keys data) /\ declared o k = false.
Proof.
  unfold extraKeys. rewrite filter_In, negb_true_iff. tauto.
Qed.

Lemma extraKeys_nil (data : Props) :
  extraKeys o data = [] <->
  (forall k, In k (keys data) -> declared o k = true).
Proof.
  split.
  - intros Hnil k Hin. destruct (declared o k) eqn:Hd; [reflexivity|].
    assert (Hx : In k (extraKeys o data)) by now apply extraKeys_In.
    rewrite Hnil in Hx. destruct Hx.
  - intros Hall. destruct (extraKeys o data) as [|k t] eqn:He; [reflexivity|].
    assert (Hx : In k (extraKeys o data)) by (rewrite He; now left).
    apply extraKeys_In in Hx. destruct Hx as [Hin Hd].
    rewrite (Hall k Hin) in Hd. discriminate.
Qed.

(** Every issue of every failing field is in the reported error. *)
Lemma parseObject_reports_field
    (f : bool) (data : Props) (k : string) (validate : Validator)
    (e : ZodError) (i : ZodIssue) :
  In (k, validate) (shape o) ->
  validate (lookup k data) = Failure e ->
  In i (issues e) ->
  exists err, parseObject o (VObject f data) = Failure err /\
              In (under k i) (issues err).
Proof.
  intros Hin Hfail Hi. unfold parseObject.
  set (pairs := map (parseField data) (shape o)).
  assert (Hpair : In (parseField data (k, validate)) pairs).
  { unfold pairs. now apply in_map. }
  assert (Hres : pair_result (parseField data (k, validate)) = Failure e).
  { exact Hfail. }
  assert (Hinvalid : forallb pairValid pairs = false).
  { destruct (forallb pairValid pairs) eqn:Hall; [|reflexivity].
    rewrite forallb_forall in Hall. specialize (Hall _ Hpair).
    unfold pairValid in Hall. rewrite Hres in Hall. discriminate. }
  rewrite Hinvalid. cbn [andb].
  eexists. split; [reflexivity|]. cbn [issues].
  apply in_or_app. left. apply in_flat_map.
  exists (parseField data (k, validate)). split; [exact Hpair|].
  unfold pairIssues. rewrite Hres. cbn [parseField pair_key fst].
  now apply in_map.
Qed.

(** [strict()] rejects an input with an undeclared key, naming the
    undeclared keys. *)
Lemma strict_rejects_undeclared (f : bool) (data : Props) :
  (exists k, In k (keys data) /\ declared o k = false) ->
  exists e,
    parseObject (Zod.strict o) (VObject f data) = Failure e /\
    In (issue_at [] (unrecognized_keys (extraKeys o data))) (issues e).
Proof.
  intros [k Hk]. apply extraKeys_In in Hk.
  unfold parseObject, unknownIssues. cbn [Zod.strict unknownKeys].
  rewrite extraKeys_strict.
  destruct (extraKeys o data) as [|k0 t] eqn:He; [destruct Hk|].
  rewrite andb_false_r.
  eexists. split; [reflexivity|]. cbn [issues].
  apply in_or_app. right. now left.
Qed.

(** On an input without undeclared keys [strict()] changes nothing. *)
Lemma strict_agrees_on_declared (f : bool) (data : Props) :
  (forall k, In k (keys data) -> declared o k = true) ->
  parseObject (Zod.strict o) (VObject f data) = parseObject o (VObject f data).
Proof.
  intros Hall. apply extraKeys_nil in Hall.
  unfold parseObject, unknownIssues, extraPairs.
  cbn [Zod.strict unknownKeys shape]. rewrite extraKeys_strict, Hall.
  destruct (unknownKeys o); reflexivity.
Qed.

(** What the schema rejects, its strict variant rejects. *)
Lemma strict_preserves_failure (v : value) (e : ZodError) :
  parseObject o v = Failure e ->
  exists e', parseObject (Zod.strict o) v = Failure e'.
Proof.
  destruct v as [| | | | |f data]; try (intros _; eexists; reflexivity).
  unfold parseObject. cbn [Zod.strict shape].
  destruct (forallb pairValid (map (parseField data) (shape o))); cbn [andb].
  - unfold unknownIssues. cbn [unknownKeys]. rewrite extraKeys_strict.
    destruct (unknownKeys o); try discriminate.
    destruct (extraKeys o data); [discriminate|].
    intros _. eexists. reflexivity.
  - intros _. eexists. reflexivity.
Qed.

End RecordSchemas.

(* ================================================================== *)
(** * Validation failures *)
(* ================================================================== *)

(** C6.  When the validation that [createEnv] ran failed and there is no
    [onError], the call raises one error.  Its message is the header
    "Invalid environment variables:" followed, each on a line of its own,
    by one entry per issue of the failure: the issue's path joined with
    dots, or "(root)" for the empty path, then ": " and the issue's
    message.  For a record schema every failing field is among them: each
    issue of each declared field whose validator rejected its value has its
    line in the message. *)
Theorem createEnv_default_report
    (opts : CreateEnvOptions) (w : World)
    (s : ZodType) (input : value) (error : ZodError) :
  In (s, input) (validations (trace (createEnv opts w))) ->
  safeParse s input = Failure error ->
  onError opts = None ->
  let line := fun i : ZodIssue =>
    (match Zod.path i with
     | [] => "(root)"
     | p => String.concat "." (map segment_string p)
     end ++ ": " ++ Zod.message i)%string in
  (exists r,
     outcome (createEnv opts w) = Throws r /\
     caught r =
       mkError "Error"
         ("Invalid environment variables:" ++ nl ++
          String.concat nl (map line (issues error)))) /\
  (forall o f data k validate e i,
     s = ZObject o -> input = VObject f data ->
     In (k, validate) (shape o) ->
     validate (lookup k data) = Failure e ->
     In i (issues e) ->
     In (line (under k i)) (map line (issues error))).
Proof.
  intros Hin Hfail Hno line.
  apply createEnv_validation_inv in Hin.
  destruct Hin as [Hg [Hskip [Hs Hinput]]]. split.
  - rewrite (createEnv_outcome opts w Hg), Hskip. unfold validated.
    rewrite <- Hs, <- Hinput, Hfail, Hno.
    eexists. split; reflexivity.
  - intros o f data k validate e i Ho Hdata Hk He Hi.
    apply in_map.
    destruct (parseObject_reports_field o f data k validate e i Hk He Hi)
      as [err [Herr Hin]].
    rewrite Ho, Hdata in Hfail. unfold safeParse in Hfail.
    rewrite Herr in Hfail. injection Hfail as Heq. now rewrite <- Heq.
Qed.

Lemma createEnv_default_report_witness :
  exists r,
    outcome (createEnv Fixtures.two_invalid Fixtures.server_world) = Throws r /\
    caught r =
      mkError "Error"
        ("Invalid environment variables:" ++ nl ++
         "PORT: " ++ defaultErrorMap (invalid_type "number" "string") ++ nl ++
         "DATABASE_URL: " ++ defaultErrorMap (invalid_type "string" "undefined")).
Proof.
  refine (proj1 (createEnv_default_report
                   Fixtures.two_invalid Fixtures.server_world
                   (finalSchema_of Fixtures.two_invalid)
                   (VObj (filteredEnv_of Fixtures.two_invalid Fixtures.server_world))
                   Fixtures.two_invalid_error _ _ _)).
  - left. reflexivity.
  - reflexivity.
  - reflexivity.
Defined.

(** C9.  When the validation that [createEnv] ran failed and an [onError]
    handler was supplied, the handler is called exactly once, with the
    error [safeParse] produced (all issues).  The call ends as the handler
    does: with the handler's exception if it raises, and never at the
    default report's [throw]. *)
Theorem createEnv_custom_handler
    (opts : CreateEnvOptions) (w : World) (handler : Handler)
    (s : ZodType) (input : value) (error : ZodError) :
  In (s, input) (validations (trace (createEnv opts w))) ->
  safeParse s input = Failure error ->
  onError opts = Some handler ->
  handler_calls (trace (createEnv opts w)) = [error] /\
  outcome (createEnv opts w) =
    match handler error with
    | HReturns v => Returns v
    | HThrows e => Throws (HandlerEscape e)
    end /\
  (forall msg, outcome (createEnv opts w) <> Throws (ValidationFailure msg)) /\
  (forall e, handler error = HThrows e ->
     exists r, outcome (createEnv opts w) = Throws r /\ caught r = e).
Proof.
  intros Hin Hfail Hh.
  apply createEnv_validation_inv in Hin.
  destruct Hin as [Hg [Hskip [Hs Hinput]]].
  rewrite Hs, Hinput in Hfail.
  assert (Hout : outcome (createEnv opts w) =
                 match handler error with
                 | HReturns v => Returns v
                 | HThrows e => Throws (HandlerEscape e)
                 end).
  { rewrite (createEnv_outcome opts w Hg), Hskip. unfold validated.
    now rewrite Hfail, Hh. }
  split; [|split; [|split]].
  - rewrite (createEnv_unfold opts w Hg), Hskip. unfold trace. cbn [fst].
    rewrite !handler_calls_app, handler_calls_guard, handler_calls_resolve,
      handler_calls_filter. cbn [app].
    unfold validate_calls. now rewrite Hfail, Hh.
  - exact Hout.
  - intros msg. rewrite Hout. destruct (handler error); discriminate.
  - intros e He. rewrite Hout, He. eexists. split; reflexivity.
Qed.

Lemma createEnv_custom_handler_witness :
  handler_calls (trace (createEnv Fixtures.custom_handler Fixtures.server_world)) =
    [Fixtures.custom_handler_error] /\
  outcome (createEnv Fixtures.custom_handler Fixtures.server_world) =
    Throws (HandlerEscape
              (mkError "TypeError"
                 (defaultErrorMap (invalid_type "number" "string")))).
Proof.
  destruct (createEnv_custom_handler
              Fixtures.custom_handler Fixtures.server_world
              Fixtures.raise_TypeError
              (finalSchema_of Fixtures.custom_handler)
              (VObj (filteredEnv_of Fixtures.custom_handler Fixtures.server_world))
              Fixtures.custom_handler_error)
    as [Hcalls [Hout _]].
  - left. reflexivity.
  - reflexivity.
  - reflexivity.
  - split; [exact Hcalls | exact Hout].
Defined.

(* ================================================================== *)
(** * Strictness *)
(* ================================================================== *)

(** C7.  Provided the guard lets the call through and validation is not
    skipped, [createEnv] makes one [safeParse] call, on a schema [final]
    chosen as follows.  If the schema is a record schema and [strict] is
    [true] or omitted, [final] is its [strict()] variant: it rejects every
    input that has an undeclared key (reporting those keys), rejects what
    the schema rejects, and parses an input without undeclared keys as the
    schema does.  If [strict] is [false], or the schema is not a record
    schema, [final] is the schema itself. *)
Theorem createEnv_strictness (opts : CreateEnvOptions) (w : World) :
  ~ (isServer opts = Some true /\ client_context w = true) ->
  skipValidation opts <> Some true ->
  exists final input,
    validations (trace (createEnv opts w)) = [(final, input)] /\
    match schema opts with
    | ZObject o =>
        if match strict opts with Some b => b | None => true end
        then
          final = ZObject (Zod.strict o) /\
          (forall f data,
             (exists k, In k (keys data) /\ declared o k = false) ->
             exists e,
               safeParse final (VObject f data) = Failure e /\
               In (issue_at [] (unrecognized_keys (extraKeys o data))) (issues e)) /\
          (forall v e,
             safeParse (ZObject o) v = Failure e ->
             exists e', safeParse final v = Failure e') /\
          (forall f data,
             (forall k, In k (keys data) -> declared o k = true) ->
             safeParse final (VObject f data) =
             safeParse (ZObject o) (VObject f data))
        else final = schema opts
    | ZOther _ => final = schema opts
    end.
Proof.
  intros Hguard Hskip. apply guard_passes in Hguard.
  exists (finalSchema_of opts), (VObj (filteredEnv_of opts w)). split.
  - rewrite createEnv_validations, Hguard.
    now rewrite (skip_of_false opts Hskip).
  - unfold finalSchema_of, strict_of.
    destruct (schema opts) as [o|parse]; [|reflexivity].
    destruct (match strict opts with Some b => b | None => true end);
      [|reflexivity].
    split; [reflexivity|]. split; [|split].
    + intros f data Hex. exact (strict_rejects_undeclared o f data Hex).
    + intros v e He. exact (strict_preserves_failure o v e He).
    + intros f data Hall. exact (strict_agrees_on_declared o f data Hall).
Qed.

Lemma createEnv_strictness_witness :
  exists final input,
    validations (trace (createEnv Fixtures.strict_extra Fixtures.server_world)) =
      [(final, input)] /\
    final = ZObject (Zod.strict (object [("DATABASE_URL", z_string)])) /\
    exists e, safeParse final input = Failure e /\
              In (issue_at [] (unrecognized_keys ["EXTRA_KEY"])) (issues e).
Proof.
  destruct (createEnv_strictness Fixtures.strict_extra Fixtures.server_world)
    as [final [input [Hval [Hfinal [Hreject _]]]]].
  - intros [H _]. discriminate H.
  - discriminate.
  - exists final, input. split; [exact Hval|]. split; [exact Hfinal|].
    rewrite createEnv_validations in Hval. injection Hval as _ Hinput.
    rewrite <- Hinput.
    apply (Hreject false). exists "EXTRA_KEY". split.
    + right. left. reflexivity.
    + reflexivity.
Defined.

(* ================================================================== *)
(** * Skipping validation, and the empty prefix *)
(* ================================================================== *)

(** C8.  With [skipValidation: true] and no guard violation, [createEnv]
    returns the mapping [env] that the filtering step left: the source
    object itself when the filter is not taken, otherwise the fresh object
    made of the source's prefixed entries.  No [safeParse] call and no
    [onError] call is made, and every entry of the result is an entry of
    the source, value untouched. *)
Theorem createEnv_skipValidation (opts : CreateEnvOptions) (w : World) :
  skipValidation opts = Some true ->
  ~ (isServer opts = Some true /\ client_context w = true) ->
  exists env : Obj,
    outcome (createEnv opts w) = Returns (VObj env) /\
    validations (trace (createEnv opts w)) = [] /\
    handler_calls (trace (createEnv opts w)) = [] /\
    match clientPrefix opts with
    | Some p =>
        if truthy_string p && (client_context w || is_false (isServer opts))
        then env = Object_fromEntries
                     (filter (fun e => startsWith (fst e) p)
                             (props (source_of opts w)))
        else env = source_of opts w
    | None => env = source_of opts w
    end /\
    (wf (props (source_of opts w)) ->
     forall k v, In (k, v) (props env) -> In (k, v) (props (source_of opts w))).
Proof.
  intros Hskip Hguard. apply guard_passes in Hguard.
  assert (Hs : skip_of opts = true) by (unfold skip_of; now rewrite Hskip).
  exists (filteredEnv_of opts w). split; [|split; [|split; [|split]]].
  - now rewrite (createEnv_outcome opts w Hguard), Hs.
  - now rewrite createEnv_validations, Hguard, Hs.
  - rewrite (createEnv_unfold opts w Hguard), Hs. unfold trace. cbn [fst].
    rewrite !handler_calls_app, handler_calls_guard, handler_calls_resolve,
      handler_calls_filter. reflexivity.
  - unfold filteredEnv_of, filter_applies.
    destruct (clientPrefix opts) as [p|]; [|reflexivity].
    now destruct (truthy_string p && (client_context w || is_false (isServer opts))).
  - intros Hwf k v. unfold filteredEnv_of.
    destruct (clientPrefix opts) as [p|]; [|tauto].
    destruct (filter_applies opts w); [|tauto].
    unfold with_prefix.
    rewrite (fromEntries_wf _ (wf_filter _ _ Hwf)), filter_In. tauto.
Qed.

Lemma createEnv_skipValidation_witness :
  outcome (createEnv Fixtures.skipped Fixtures.server_world) =
    Returns (VObject false [("PORT", VString "invalid")]) /\
  (exists e, safeParse (finalSchema_of Fixtures.skipped)
               (VObject false [("PORT", VString "invalid")]) = Failure e).
Proof.
  destruct (createEnv_skipValidation Fixtures.skipped Fixtures.server_world)
    as [env [Hout [_ [_ [Henv _]]]]].
  - reflexivity.
  - intros [H _]. discriminate H.
  - simpl in Henv. rewrite Henv in Hout. split.
    + exact Hout.
    + eexists. reflexivity.
Defined.

(** C10.  With [clientPrefix: ""] a call behaves, in every execution
    context, exactly as the same call without [clientPrefix]: same calls,
    same outcome.  It never reads the entries of the source to filter them,
    and when it validates, it validates the whole source. *)
Theorem createEnv_empty_prefix (opts : CreateEnvOptions) (w : World) :
  createEnv (with_clientPrefix opts (Some "")) w =
    createEnv (with_clientPrefix opts None) w /\
  entries_reads (trace (createEnv (with_clientPrefix opts (Some "")) w)) = [] /\
  validations (trace (createEnv (with_clientPrefix opts (Some "")) w)) =
    if guard_violation opts w || skip_of opts then []
    else [(finalSchema_of opts, VObj (source_of opts w))].
Proof.
  set (oe := with_clientPrefix opts (Some "")).
  set (on := with_clientPrefix opts None).
  assert (Hge : guard_violation oe w = guard_violation opts w) by reflexivity.
  assert (Hgn : guard_violation on w = guard_violation opts w) by reflexivity.
  split; [|split].
  - destruct (guard_violation opts w) eqn:Hg.
    + now rewrite (createEnv_guarded oe w Hge), (createEnv_guarded on w Hgn).
    + now rewrite (createEnv_unfold oe w Hge), (createEnv_unfold on w Hgn).
  - destruct (guard_violation opts w) eqn:Hg.
    + now rewrite (createEnv_guarded oe w Hge).
    + rewrite (createEnv_unfold oe w Hge). unfold trace. cbn [fst].
      rewrite !entries_reads_app.
      replace (filter_calls oe w) with (@nil Event) by reflexivity.
      replace (entries_reads (guard_calls oe)) with (@nil Obj)
        by (unfold guard_calls; now destruct (is_true (isServer oe))).
      replace (entries_reads (resolve_calls oe)) with (@nil Obj)
        by (unfold resolve_calls; now destruct (runtimeEnv oe), (envSource oe)).
      cbn [app entries_reads].
      destruct (skip_of oe); [reflexivity|].
      unfold validate_calls. cbn [entries_reads].
      destruct (safeParse _ _); [reflexivity|].
      now destruct (onError oe).
  - rewrite createEnv_validations. reflexivity.
Qed.

(* ================================================================== *)
(** * The split validator *)
(* ================================================================== *)

Lemma freeze_frozen (v : value) : Object_isFrozen (Object_freeze v) = true.
Proof. now destruct v. Qed.

Lemma frozen_assign (v : value) (k : string) (x : value) :
  Object_isFrozen v = true -> assign v k x = TypeError.
Proof. destruct v as [| | | | |[|] ps]; simpl; congruence. Qed.


Section Split.

Variable opts : Split.Options.
Variable w : World.

Lemma createSplitEnv_client :
  client_context w = true ->
  outcome (createSplitEnv opts w) = outcome (createEnv (client_call opts) w).
Proof.
  intros Hc. unfold createSplitEnv, isClientSide.
  unfold bind at 2. unfold tell, ret. cbn [fst snd app].
  rewrite bind_returns, Hc. fold (client_call opts).
  unfold outcome, bind. cbn [snd].
  now destruct (snd (createEnv (client_call opts) w)).
Qed.

Lemma createSplitEnv_server :
  client_context w = false ->
  outcome (createSplitEnv opts w) =
  match outcome (createEnv (server_call opts) w) with
  | Returns serverEnv =>
      match outcome (createEnv (client_call opts) w) with
      | Returns clientEnv => Returns (spread2 serverEnv clientEnv)
      | Throws r => Throws r
      end
  | Throws r => Throws r
  end.
Proof.
  intros Hc. unfold createSplitEnv, isClientSide.
  unfold bind at 2. unfold tell, ret. cbn [fst snd app].
  rewrite bind_returns, Hc. fold (client_call opts). fold (server_call opts).
  unfold outcome, bind. cbn [snd].
  destruct (snd (createEnv (server_call opts) w)); cbn [snd]; [|reflexivity].
  now destruct (snd (createEnv (client_call opts) w)).
Qed.

(** X2.  In a client context the result of a successful validation is
    the frozen client object. *)
Lemma createSplitEnv_client_frozen (v : value) :
  client_context w = true ->
  Split.skipValidation opts <> Some true ->
  Split.onError opts = None ->
  outcome (createSplitEnv opts w) = Returns v ->
  Object_isFrozen v = true /\ forall k x, assign v k x = TypeError.
Proof.
  intros Hc Hskip Hno. rewrite (createSplitEnv_client Hc).
  assert (Hg : guard_violation (client_call opts) w = false) by reflexivity.
  rewrite (createEnv_outcome (client_call opts) w Hg).
  rewrite (skip_of_false (client_call opts) Hskip).
  unfold validated. destruct (safeParse _ _) as [d|e].
  - intros Hv. injection Hv as <-. split; [apply freeze_frozen|].
    intros k x. apply frozen_assign, freeze_frozen.
  - change (onError (client_call opts)) with (Split.onError opts).
    rewrite Hno. discriminate.
Qed.

(** X4.  In a server context the server schema is validated in strict
    mode against the whole combined source, so any key of the source that
    the server schema does not declare (a client key, for one) makes the
    call fail before the client schema is looked at. *)
Lemma createSplitEnv_server_rejects_foreign_keys :
  client_context w = false ->
  Split.skipValidation opts <> Some true ->
  Split.onError opts = None ->
  (exists k, In k (keys (props (Split.runtimeEnv opts))) /\
             declared (Split.server opts) k = false) ->
  exists msg, outcome (createSplitEnv opts w) = Throws (ValidationFailure msg).
Proof.
  intros Hc Hskip Hno Hex. rewrite (createSplitEnv_server Hc).
  assert (Hg : guard_violation (server_call opts) w = false).
  { unfold guard_violation. now rewrite Hc, andb_false_r. }
  rewrite (createEnv_outcome (server_call opts) w Hg).
  rewrite (skip_of_false (server_call opts) Hskip).
  unfold validated.
  destruct (strict_rejects_undeclared (Split.server opts)
              (frozen (Split.runtimeEnv opts)) _ Hex) as [e [He _]].
  change (safeParse (finalSchema_of (server_call opts))
            (VObj (filteredEnv_of (server_call opts) w)))
    with (parseObject (Zod.strict (Split.server opts))
            (VObject (frozen (Split.runtimeEnv opts))
                     (props (Split.runtimeEnv opts)))).
  rewrite He.
  change (onError (server_call opts)) with (Split.onError opts). rewrite Hno.
  eexists. reflexivity.
Qed.

End Split.

(** X3.  In a server context whatever [createSplitEnv] returns is a
    fresh object literal, never a frozen one. *)
Lemma createSplitEnv_server_unfrozen
    (opts : Split.Options) (w : World) (v : value) :
  client_context w = false ->
  outcome (createSplitEnv opts w) = Returns v ->
  Object_isFrozen v = false.
Proof.
  intros Hc. rewrite (createSplitEnv_server opts w Hc).
  destruct (outcome (createEnv (server_call opts) w)); [|discriminate].
  destruct (outcome (createEnv (client_call opts) w)); [|discriminate].
  intros Hv. injection Hv as <-. reflexivity.
Qed.

(** C1.  On the input of the test "filters client vars by prefix", in a
    server context, [createSplitEnv] does not return the merge of the two
    validated objects ([SECRET_KEY] and [NEXT_PUBLIC_API] with their
    values): the strict server schema is run on the combined source, finds
    the client key [NEXT_PUBLIC_API] undeclared, and the call raises the
    default validation error.  Yet each of the two schemas, as given,
    accepts the source. *)
Theorem createSplitEnv_server_merge_fails :
  outcome (createSplitEnv Fixtures.split_by_prefix Fixtures.server_world) =
    Throws (ValidationFailure
              ("Invalid environment variables:" ++ nl ++ "(root): " ++
               defaultErrorMap (unrecognized_keys ["NEXT_PUBLIC_API"]))) /\
  safeParse (ZObject (Split.server Fixtures.split_by_prefix))
            (VObj (Split.runtimeEnv Fixtures.split_by_prefix)) =
    Success (VObject false [("SECRET_KEY", VString "secret")]) /\
  safeParse (ZObject (Split.client Fixtures.split_by_prefix))
            (VObj (Split.runtimeEnv Fixtures.split_by_prefix)) =
    Success (VObject false [("NEXT_PUBLIC_API", VString "https://api.example.com")]).
Proof.
  repeat split; reflexivity.
Qed.

(** C3.  In a server context [createSplitEnv] returns the object literal
    that merges the two validated objects, and that object is not frozen:
    on an input it accepts, [Object.isFrozen] is [false] for the result and
    assigning to its field succeeds instead of raising. *)
Theorem createSplitEnv_server_result_not_frozen :
  outcome (createSplitEnv Fixtures.split_server_only Fixtures.server_world) =
    Returns (VObject false [("SECRET", VString "secret")]) /\
  Object_isFrozen (VObject false [("SECRET", VString "secret")]) = false /\
  assign (VObject false [("SECRET", VString "secret")])
         "SECRET" (VString "new-secret") =
    Assigned (VObject false [("SECRET", VString "new-secret")]).
Proof. repeat split; reflexivity. Qed.

(* ================================================================== *)
(** * The test suite, run on the model *)
(* ================================================================== *)

Section TestSuite.

Import Fixtures.

Example test_strict_rejects_unknown_keys :
  exists msg, outcome (createEnv strict_extra server_world) =
              Throws (ValidationFailure msg).
Proof. eexists. reflexivity. Qed.

Example test_non_strict_allows_unknown_keys :
  outcome (createEnv non_strict_extra server_world) =
  Returns (VObject true [("DATABASE_URL", VString "https://example.com")]).
Proof. reflexivity. Qed.

Example test_returns_frozen_object :
  outcome (createEnv api_key server_world) =
    Returns (VObject true [("API_KEY", VString "secret")]) /\
  assign (VObject true [("API_KEY", VString "secret")])
         "API_KEY" (VString "new-value") = TypeError.
Proof. split; reflexivity. Qed.

Example test_server_only_on_server :
  outcome (createEnv server_only server_world) =
  Returns (VObject true [("DATABASE_URL", VString "https://db.example.com")]).
Proof. reflexivity. Qed.

Example test_filters_on_client :
  outcome (createEnv client_filtered browser_world) =
  Returns (VObject true [("VITE_API_URL", VString "https://api.example.com")]).
Proof. reflexivity. Qed.

Example test_does_not_filter_on_server :
  outcome (createEnv server_with_prefix server_world) =
  Returns (VObject true [("VITE_API_URL", VString "https://api.example.com");
                         ("SECRET_KEY", VString "secret")]).
Proof. reflexivity. Qed.

Example test_split_unprefixed_throws :
  exists r, outcome (createSplitEnv split_unprefixed server_world) = Throws r.
Proof. eexists. reflexivity. Qed.

Example test_split_skipValidation :
  outcome (createSplitEnv split_skipped server_world) =
  Returns (VObject false [("DATABASE_URL", VString "invalid-url");
                          ("VITE_API_URL", VString "also-invalid")]).
Proof. reflexivity. Qed.

Example test_optional_values :
  outcome (createEnv optional_var server_world) =
  Returns (VObject true [("OPTIONAL_VAR", VUndefined);
                         ("REQUIRED_VAR", VString "https://example.com/test-db")]).
Proof. reflexivity. Qed.

(** The split test "returns frozen object" does not get as far as its
    assignment: the call itself raises. *)
Example test_split_frozen_input_throws :
  outcome (createSplitEnv split_frozen server_world) =
  Throws (ValidationFailure
            ("Invalid environment variables:" ++ nl ++ "(root): " ++
             defaultErrorMap (unrecognized_keys ["VITE_PUBLIC"]))).
Proof. reflexivity. Qed.

Example test_split_on_client :
  outcome (createSplitEnv split_by_prefix browser_world) =
  Returns (VObject true [("NEXT_PUBLIC_API", VString "https://api.example.com")]).
Proof. reflexivity. Qed.

End TestSuite.

(* ================================================================== *)
(** * Further properties: frozen results and the split validator *)
(* ================================================================== *)


Lemma createSplitEnv_client_frozen_witness :
  Object_isFrozen (VObject true [("NEXT_PUBLIC_API", VString "https://api.example.com")]) = true /\
  (forall k x,
     assign (VObject true [("NEXT_PUBLIC_API", VString "https://api.example.com")]) k x =
     TypeError).
Proof.
  apply (createSplitEnv_client_frozen Fixtures.split_by_prefix Fixtures.browser_world).
  - reflexivity.
  - discriminate.
  - reflexivity.
  - reflexivity.
Defined.

Lemma createSplitEnv_server_unfrozen_witness :
  Object_isFrozen (VObject false [("SECRET", VString "secret")]) = false.
Proof.
  apply (createSplitEnv_server_unfrozen Fixtures.split_server_only
           Fixtures.server_world).
  - reflexivity.
  - reflexivity.
Defined.

Lemma createSplitEnv_server_rejects_foreign_keys_witness :
  exists msg,
    outcome (createSplitEnv Fixtures.split_by_prefix Fixtures.server_world) =
    Throws (ValidationFailure msg).
Proof.
  apply createSplitEnv_server_rejects_foreign_keys.
  - reflexivity.
  - discriminate.
  - reflexivity.
  - exists "NEXT_PUBLIC_API". split.
    + right. left. reflexivity.
    + reflexivity.
Defined.

Lemma createEnv_unguarded_not_security (opts : CreateEnvOptions) (w : World) :
  guard_violation opts w = false ->
  outcome (createEnv opts w) <> Throws SecurityViolation.
Proof.
  intros Hg. rewrite (createEnv_outcome opts w Hg).
  destruct (skip_of opts); [discriminate|].
  apply validated_not_security.
Qed.

Section SplitRuns.

Variable opts : Split.Options.
Variable w : World.

Lemma client_call_unguarded : guard_violation (client_call opts) w = false.
Proof. reflexivity. Qed.

Lemma server_call_unguarded :
  client_context w = false -> guard_violation (server_call opts) w = false.
Proof. intros Hc. unfold guard_violation. now rewrite Hc, andb_false_r. Qed.

(** The run of the client branch: the probe, then the client call. *)
Lemma createSplitEnv_client_run :
  client_context w = true ->
  createSplitEnv opts w =
  (EvIsClientSide :: trace (createEnv (client_call opts) w),
   outcome (createEnv (client_call opts) w)).
Proof.
  intros Hc. unfold createSplitEnv, isClientSide.
  unfold bind at 2. unfold tell, ret. cbn [fst snd app].
  rewrite bind_returns, Hc. fold (client_call opts).
  unfold trace, outcome, bind.
  destruct (createEnv (client_call opts) w) as [t [v|r]]; cbn [fst snd app].
  - now rewrite app_nil_r.
  - reflexivity.
Qed.

(** The run of the server branch: the probe, the server call and, if that
    one returns, the client call. *)
Lemma createSplitEnv_server_run :
  client_context w = false ->
  trace (createSplitEnv opts w) =
  EvIsClientSide ::
    trace (createEnv (server_call opts) w) ++
    match outcome (createEnv (server_call opts) w) with
    | Returns _ => trace (createEnv (client_call opts) w)
    | Throws _ => []
    end.
Proof.
  intros Hc. unfold createSplitEnv, isClientSide.
  unfold bind at 2. unfold tell, ret. cbn [fst snd app].
  rewrite bind_returns, Hc. fold (client_call opts). fold (server_call opts).
  unfold trace, outcome, bind.
  destruct (createEnv (server_call opts) w) as [ts [sv|r]]; cbn [fst snd app].
  - destruct (createEnv (client_call opts) w) as [tc [cv|r]]; cbn [fst snd app].
    + now rewrite app_nil_r.
    + reflexivity.
  - now rewrite app_nil_r.
Qed.

End SplitRuns.

(** X5.  [createSplitEnv] never ends with the guard's security error: the
    server-only call is made only after the probe has answered "server". *)
Theorem createSplitEnv_never_security_violation
    (opts : Split.Options) (w : World) :
  match outcome (createSplitEnv opts w) with
  | Throws SecurityViolation => False
  | _ => True
  end.
Proof.
  assert (H : outcome (createSplitEnv opts w) <> Throws SecurityViolation).
  { destruct (client_context w) eqn:Hc.
    - rewrite (createSplitEnv_client opts w Hc).
      apply createEnv_unguarded_not_security, client_call_unguarded.
    - rewrite (createSplitEnv_server opts w Hc).
      pose proof (createEnv_unguarded_not_security (server_call opts) w
                    (server_call_unguarded opts w Hc)) as Hs.
      pose proof (createEnv_unguarded_not_security (client_call opts) w
                    (client_call_unguarded opts w)) as Hcl.
      destruct (outcome (createEnv (server_call opts) w)) as [sv|r].
      + destruct (outcome (createEnv (client_call opts) w)); [discriminate|].
        exact Hcl.
      + exact Hs. }
  destruct (outcome (createSplitEnv opts w)) as [v|[| |]]; try exact I.
  now apply H.
Qed.

Lemma keys_filteredEnv_prefixed (opts : CreateEnvOptions) (w : World) (p : string) :
  clientPrefix opts = Some p ->
  filter_applies opts w = true ->
  all_prefixed p (props (filteredEnv_of opts w)).
Proof.
  intros Hp Happ k. unfold filteredEnv_of. rewrite Hp, Happ.
  unfold Object_fromEntries. cbn [props].
  rewrite keys_fold_set, keys_with_prefix. intros [[]|[_ H]]. exact H.
Qed.

(** X6.  In a client context, with a non-empty prefix, the split validator
    consults the client schema only (in its strict variant), hands it
    nothing but keys that start with the prefix, and under [skipValidation]
    returns nothing but such keys: no unprefixed variable reaches the
    schema or the caller. *)
Theorem createSplitEnv_client_sees_prefixed_only
    (opts : Split.Options) (w : World) :
  client_context w = true ->
  truthy_string (Split.clientPrefix opts) = true ->
  (forall s input,
     In (s, input) (validations (trace (createSplitEnv opts w))) ->
     s = ZObject (Zod.strict (Split.client opts)) /\
     exists f ps, input = VObject f ps /\
                  all_prefixed (Split.clientPrefix opts) ps) /\
  (Split.skipValidation opts = Some true ->
   exists ps, outcome (createSplitEnv opts w) = Returns (VObject false ps) /\
              all_prefixed (Split.clientPrefix opts) ps).
Proof.
  intros Hc Hp.
  assert (Happ : filter_applies (client_call opts) w = true).
  { unfold filter_applies. cbn [client_call clientPrefix]. now rewrite Hp, Hc. }
  pose proof (keys_filteredEnv_prefixed (client_call opts) w
                (Split.clientPrefix opts) eq_refl Happ) as Hkeys.
  rewrite (createSplitEnv_client_run opts w Hc). split.
  - intros s input Hin. unfold trace in Hin. cbn [fst validations] in Hin.
    apply createEnv_validation_inv in Hin.
    destruct Hin as [_ [_ [Hs Hinput]]]. split; [exact Hs|].
    eexists _, _. split; [exact Hinput|exact Hkeys].
  - intros Hskip. unfold outcome. cbn [snd].
    change (snd (createEnv (client_call opts) w))
      with (outcome (createEnv (client_call opts) w)).
    rewrite (createEnv_outcome _ w (client_call_unguarded opts w)).
    unfold skip_of. cbn [client_call skipValidation]. rewrite Hskip.
    exists (props (filteredEnv_of (client_call opts) w)). split; [|exact Hkeys].
    unfold VObj. f_equal. unfold filteredEnv_of. now rewrite Happ.
Qed.

Lemma createSplitEnv_client_sees_prefixed_only_witness :
  exists ps,
    outcome (createSplitEnv Fixtures.split_skipped Fixtures.browser_world) =
      Returns (VObject false ps) /\
    all_prefixed "VITE_" ps.
Proof.
  apply (createSplitEnv_client_sees_prefixed_only Fixtures.split_skipped
           Fixtures.browser_world); reflexivity.
Defined.

(** X7.  With the empty string as [clientPrefix] the split validator does
    not filter in a client context either: the client schema is validated
    against the whole combined source, and under [skipValidation] the whole
    source object, server variables included, is what the caller gets. *)
Theorem createSplitEnv_client_empty_prefix
    (opts : Split.Options) (w : World) :
  client_context w = true ->
  Split.clientPrefix opts = "" ->
  (Split.skipValidation opts = Some true ->
   outcome (createSplitEnv opts w) = Returns (VObj (Split.runtimeEnv opts))) /\
  (Split.skipValidation opts <> Some true ->
   validations (trace (createSplitEnv opts w)) =
   [(ZObject (Zod.strict (Split.client opts)), VObj (Split.runtimeEnv opts))]).
Proof.
  intros Hc Hp.
  assert (Hf : filteredEnv_of (client_call opts) w = Split.runtimeEnv opts).
  { unfold filteredEnv_of, filter_applies. cbn [client_call clientPrefix].
    now rewrite Hp. }
  rewrite (createSplitEnv_client_run opts w Hc). split.
  - intros Hskip. unfold outcome. cbn [snd].
    change (snd (createEnv (client_call opts) w))
      with (outcome (createEnv (client_call opts) w)).
    rewrite (createEnv_outcome _ w (client_call_unguarded opts w)).
    unfold skip_of. cbn [client_call skipValidation]. now rewrite Hskip, Hf.
  - intros Hskip. unfold trace. cbn [fst validations].
    change (fst (createEnv (client_call opts) w))
      with (trace (createEnv (client_call opts) w)).
    rewrite createEnv_validations, (client_call_unguarded opts w).
    rewrite (skip_of_false (client_call opts) Hskip). cbn [orb].
    now rewrite Hf.
Qed.

Lemma createSplitEnv_client_empty_prefix_witness :
  outcome (createSplitEnv Samples.split_empty_prefix Fixtures.browser_world) =
  Returns (VObject false [("SECRET_KEY", VString "secret");
                          ("NEXT_PUBLIC_API", VString "https://api.example.com")]).
Proof.
  apply (createSplitEnv_client_empty_prefix Samples.split_empty_prefix
           Fixtures.browser_world); reflexivity.
Defined.

(* ================================================================== *)
(** * Further properties: merging *)
(* ================================================================== *)

Section Merging.

Lemma get_set (k k' : string) (v : value) (ps : Props) :
  get k (JS.set k' v ps) = if String.eqb k k' then Some v else get k ps.
Proof.
  induction ps as [|[k1 v1] t IH]; simpl.
  - reflexivity.
  - destruct (String.eqb_spec k' k1) as [->|Hne]; simpl.
    + now destruct (String.eqb k k1).
    + destruct (String.eqb_spec k k1) as [->|Hne1].
      * destruct (String.eqb_spec k1 k') as [E|_]; [congruence|reflexivity].
      * exact IH.
Qed.

Lemma get_app (k : string) (ps qs : Props) :
  get k (ps ++ qs) =
  match get k ps with Some v => Some v | None => get k qs end.
Proof.
  induction ps as [|[k1 v1] t IH]; simpl; [reflexivity|].
  now destruct (String.eqb k k1).
Qed.

Lemma get_fold_set (k : string) (es acc : Props) :
  get k (fold_left (fun a e => JS.set (fst e) (snd e) a) es acc) =
  match get k (rev es) with Some v => Some v | None => get k acc end.
Proof.
  revert acc. induction es as [|[k1 v1] t IH]; intros acc; simpl.
  - reflexivity.
  - rewrite IH, get_app, get_set. simpl.
    destruct (get k (rev t)); [reflexivity|].
    now destruct (String.eqb k k1).
Qed.

Lemma get_In_wf (k : string) (v : value) (ps : Props) :
  wf ps -> (get k ps = Some v <-> In (k, v) ps).
Proof.
  unfold wf. induction ps as [|[k1 v1] t IH]; simpl; intros Hnd.
  - split; [discriminate|tauto].
  - inversion Hnd as [|? ? Hnotin Hnd']; subst.
    destruct (String.eqb_spec k k1) as [->|Hne].
    + split.
      * intros H. injection H as <-. now left.
      * intros [H|H]; [now injection H as <-|].
        exfalso. apply Hnotin. unfold keys.
        change k1 with (fst (k1, v)). now apply in_map.
    + rewrite (IH Hnd'). split; [tauto|].
      intros [H|H]; [injection H as E _; congruence|exact H].
Qed.

Lemma wf_rev (ps : Props) : wf ps -> wf (rev ps).
Proof.
  unfold wf, keys. rewrite map_rev. apply NoDup_rev.
Qed.

Lemma get_rev_wf (k : string) (ps : Props) :
  wf ps -> get k (rev ps) = get k ps.
Proof.
  intros Hwf. pose proof (wf_rev ps Hwf) as Hwr.
  destruct (get k ps) as [v|] eqn:Hg.
  - apply (get_In_wf k v _ Hwr). apply in_rev. rewrite rev_involutive.
    now apply (get_In_wf k v ps Hwf).
  - destruct (get k (rev ps)) as [v|] eqn:Hr; [|reflexivity].
    apply (get_In_wf k v _ Hwr) in Hr. apply in_rev in Hr.
    apply (get_In_wf k v ps Hwf) in Hr. congruence.
Qed.

Lemma wf_set (k : string) (v : value) (ps : Props) :
  wf ps -> wf (JS.set k v ps).
Proof.
  unfold wf. induction ps as [|[k1 v1] t IH]; simpl; intros Hnd.
  - constructor; [intros []|constructor].
  - inversion Hnd as [|? ? Hnotin Hnd']; subst.
    destruct (String.eqb_spec k k1) as [->|Hne]; simpl.
    + now constructor.
    + constructor; [|now apply IH].
      intros Hin. apply keys_set in Hin. destruct Hin as [E|Hin]; congruence.
Qed.

Lemma wf_fold_set (es acc : Props) :
  wf acc -> wf (fold_left (fun a e => JS.set (fst e) (snd e) a) es acc).
Proof.
  revert acc. induction es as [|e t IH]; intros acc Hwf; simpl.
  - exact Hwf.
  - apply IH. now apply wf_set.
Qed.

Lemma set_present (k : string) (v : value) (ps : Props) :
  wf ps -> In (k, v) ps -> JS.set k v ps = ps.
Proof.
  unfold wf. induction ps as [|[k1 v1] t IH]; simpl; intros Hnd Hin.
  - destruct Hin.
  - inversion Hnd as [|? ? Hnotin Hnd']; subst.
    destruct (String.eqb_spec k k1) as [->|Hne].
    + destruct Hin as [H|H]; [now injection H as <-|].
      exfalso. apply Hnotin. unfold keys.
      change k1 with (fst (k1, v)). now apply in_map.
    + f_equal. apply IH; [exact Hnd'|].
      destruct Hin as [H|H]; [injection H as E _; congruence|exact H].
Qed.

Lemma fold_set_present (qs ps : Props) :
  wf ps -> (forall e, In e qs -> In e ps) ->
  fold_left (fun a e => JS.set (fst e) (snd e) a) qs ps = ps.
Proof.
  intros Hwf. induction qs as [|[k v] t IH]; intros Hsub; simpl.
  - reflexivity.
  - rewrite (set_present k v ps Hwf); [|apply Hsub; now left].
    apply IH. intros e He. apply Hsub. now right.
Qed.

End Merging.

(** X8.  In a server context, when both sub-calls return objects, the
    result of [createSplitEnv] is a fresh object with pairwise distinct keys
    in which a key's value is the client object's if the client object has
    the key, and the server object's otherwise. *)
Theorem createSplitEnv_merge_client_wins
    (opts : Split.Options) (w : World)
    (fs fc : bool) (ps pc : Props) :
  client_context w = false ->
  outcome (createEnv (server_call opts) w) = Returns (VObject fs ps) ->
  outcome (createEnv (client_call opts) w) = Returns (VObject fc pc) ->
  wf ps -> wf pc ->
  exists m,
    outcome (createSplitEnv opts w) = Returns (VObject false m) /\
    wf m /\
    forall k, get k m =
              match get k pc with Some v => Some v | None => get k ps end.
Proof.
  intros Hc Hs Hcl Hps Hpc.
  rewrite (createSplitEnv_server opts w Hc), Hs, Hcl.
  unfold spread2. cbn [own_entries]. eexists. split; [reflexivity|]. split.
  - apply wf_fold_set. constructor.
  - intros k. rewrite get_fold_set, rev_app_distr, get_app.
    rewrite (get_rev_wf k pc Hpc), (get_rev_wf k ps Hps).
    destruct (get k pc); [reflexivity|]. now destruct (get k ps).
Qed.

Lemma createSplitEnv_merge_client_wins_witness :
  exists m,
    outcome (createSplitEnv Fixtures.split_skipped Fixtures.server_world) =
      Returns (VObject false m) /\
    wf m /\
    forall k, get k m =
              match get k [("VITE_API_URL", VString "also-invalid")] with
              | Some v => Some v
              | None => get k [("DATABASE_URL", VString "invalid-url");
                               ("VITE_API_URL", VString "also-invalid")]
              end.
Proof.
  apply (createSplitEnv_merge_client_wins Fixtures.split_skipped
           Fixtures.server_world false false).
  - reflexivity.
  - reflexivity.
  - reflexivity.
  - repeat constructor; simpl; intuition discriminate.
  - repeat constructor; simpl; intuition discriminate.
Defined.

(** X9.  In a server context with [skipValidation: true] the split
    validator returns a fresh, unfrozen copy of the whole combined source:
    the same entries in the same order, prefixed or not. *)
Theorem createSplitEnv_server_skip_copies_source
    (opts : Split.Options) (w : World) :
  client_context w = false ->
  Split.skipValidation opts = Some true ->
  wf (props (Split.runtimeEnv opts)) ->
  outcome (createSplitEnv opts w) =
  Returns (VObject false (props (Split.runtimeEnv opts))).
Proof.
  intros Hc Hskip Hwf.
  rewrite (createSplitEnv_server opts w Hc).
  rewrite (createEnv_outcome _ w (server_call_unguarded opts w Hc)).
  rewrite (createEnv_outcome _ w (client_call_unguarded opts w)).
  unfold skip_of. cbn [server_call client_call skipValidation]. rewrite Hskip.
  assert (Hsrv : filteredEnv_of (server_call opts) w = Split.runtimeEnv opts)
    by reflexivity.
  rewrite Hsrv. unfold spread2, VObj. cbn [own_entries]. f_equal.
  rewrite fold_left_app.
  rewrite (fold_set_nodup (props (Split.runtimeEnv opts)) []) by exact Hwf.
  cbn [app]. f_equal. apply (fold_set_present _ _ Hwf).
  intros [k v]. unfold filteredEnv_of. cbn [client_call clientPrefix].
  destruct (filter_applies _ w).
  - change (source_of (client_call opts) w) with (Split.runtimeEnv opts).
    unfold with_prefix.
    rewrite (fromEntries_wf _ (wf_filter _ _ Hwf)), filter_In. tauto.
  - tauto.
Qed.

Lemma createSplitEnv_server_skip_copies_source_witness :
  outcome (createSplitEnv Fixtures.split_skipped Fixtures.server_world) =
  Returns (VObject false [("DATABASE_URL", VString "invalid-url");
                          ("VITE_API_URL", VString "also-invalid")]).
Proof.
  apply (createSplitEnv_server_skip_copies_source Fixtures.split_skipped
           Fixtures.server_world).
  - reflexivity.
  - reflexivity.
  - repeat constructor; simpl; intuition discriminate.
Defined.

(* ================================================================== *)
(** * Further properties: the error handler *)
(* ================================================================== *)

Lemma createEnv_handler_calls (opts : CreateEnvOptions) (w : World) :
  handler_calls (trace (createEnv opts w)) =
  if guard_violation opts w || skip_of opts then []
  else match safeParse (finalSchema_of opts) (VObj (filteredEnv_of opts w)) with
       | Success _ => []
       | Failure error =>
           match onError opts with
           | Some _ => [error]
           | None => []
           end
       end.
Proof.
  destruct (guard_violation opts w) eqn:Hg.
  - now rewrite (createEnv_guarded opts w Hg).
  - rewrite (createEnv_unfold opts w Hg). unfold trace. cbn [fst orb].
    rewrite !handler_calls_app, handler_calls_guard, handler_calls_resolve,
      handler_calls_filter. cbn [app].
    destruct (skip_of opts); [reflexivity|].
    unfold validate_calls. cbn [handler_calls].
    destruct (safeParse _ _); [reflexivity|].
    now destruct (onError opts).
Qed.

Lemma createEnv_handler_calls_le (opts : CreateEnvOptions) (w : World) :
  List.length (handler_calls (trace (createEnv opts w))) <= 1.
Proof.
  rewrite createEnv_handler_calls.
  destruct (guard_violation opts w || skip_of opts); [simpl; lia|].
  destruct (safeParse _ _); [simpl; lia|].
  destruct (onError opts); simpl; lia.
Qed.

(** A call whose handler was invoked and raised does not return. *)
Lemma createEnv_raising_handler_stops
    (opts : CreateEnvOptions) (w : World) (h : Handler) (v : value) :
  onError opts = Some h ->
  (forall e, exists x, h e = HThrows x) ->
  outcome (createEnv opts w) = Returns v ->
  handler_calls (trace (createEnv opts w)) = [].
Proof.
  intros Hh Hraise Hret. rewrite createEnv_handler_calls.
  destruct (guard_violation opts w) eqn:Hg; [reflexivity|]. cbn [orb].
  rewrite (createEnv_outcome opts w Hg) in Hret.
  destruct (skip_of opts); [reflexivity|].
  unfold validated in Hret.
  destruct (safeParse _ _) as [d|e]; [reflexivity|].
  rewrite Hh in Hret. destruct (Hraise e) as [x Hx]. rewrite Hx in Hret.
  discriminate.
Qed.

(** X10.  One [createSplitEnv] call invokes [onError] at most twice, at
    most once in a client context, and at most once anywhere if the handler
    raises on every error (as its type [never] promises): a handler that
    raised for the server schema ends the call before the client schema is
    validated. *)
Theorem createSplitEnv_handler_calls
    (opts : Split.Options) (w : World) :
  List.length (handler_calls (trace (createSplitEnv opts w))) <= 2 /\
  (client_context w = true ->
   List.length (handler_calls (trace (createSplitEnv opts w))) <= 1) /\
  (forall h, Split.onError opts = Some h ->
             (forall e, exists x, h e = HThrows x) ->
             List.length (handler_calls (trace (createSplitEnv opts w))) <= 1).
Proof.
  pose proof (createEnv_handler_calls_le (server_call opts) w) as Hs.
  pose proof (createEnv_handler_calls_le (client_call opts) w) as Hcl.
  destruct (client_context w) eqn:Hc.
  - rewrite (createSplitEnv_client_run opts w Hc). unfold trace at 1 3 5.
    cbn [fst handler_calls].
    change (fst (createEnv (client_call opts) w))
      with (trace (createEnv (client_call opts) w)).
    repeat split; intros; lia.
  - rewrite (createSplitEnv_server_run opts w Hc). cbn [handler_calls].
    rewrite handler_calls_app, List.length_app.
    split; [|split; [discriminate|]].
    + destruct (outcome (createEnv (server_call opts) w));
        cbn [handler_calls List.length]; lia.
    + intros h Hh Hraise.
      destruct (outcome (createEnv (server_call opts) w)) as [sv|r] eqn:Hout.
      * rewrite (createEnv_raising_handler_stops (server_call opts) w h sv
                   Hh Hraise Hout).
        cbn [handler_calls List.length]. lia.
      * cbn [handler_calls List.length]. lia.
Qed.

Lemma createSplitEnv_handler_calls_witness :
  List.length (handler_calls
            (trace (createSplitEnv Samples.split_with_handler
                      Fixtures.server_world))) <= 1.
Proof.
  apply (createSplitEnv_handler_calls Samples.split_with_handler
           Fixtures.server_world) with (h := Fixtures.raise_TypeError).
  - reflexivity.
  - intros e. eexists. reflexivity.
Defined.

(* ================================================================== *)
(** * Further properties: where the variables come from *)
(* ================================================================== *)

(** X11.  An explicit [runtimeEnv] shields the call from every other
    source: whatever [envSource] is, and whatever [process.env] and
    [import.meta.env] hold, the run (calls and outcome) is the same, as long
    as [window] is. *)
Theorem createEnv_runtimeEnv_shields
    (opts : CreateEnvOptions) (w w' : World) (src : Obj) (e : option Obj) :
  runtimeEnv opts = Some src ->
  window w' = window w ->
  createEnv (with_envSource opts e) w' = createEnv opts w.
Proof.
  intros Hsrc Hwin.
  assert (Hctx : client_context w' = client_context w).
  { unfold client_context. now rewrite Hwin. }
  assert (Hg : guard_violation (with_envSource opts e) w' = guard_violation opts w).
  { unfold guard_violation. cbn [with_envSource isServer]. now rewrite Hctx. }
  destruct (guard_violation opts w) eqn:Hgo.
  - now rewrite (createEnv_guarded _ w' Hg), (createEnv_guarded opts w Hgo).
  - rewrite (createEnv_unfold _ w' Hg), (createEnv_unfold opts w Hgo).
    unfold guard_calls, resolve_calls, filter_calls, validate_calls, validated,
      filteredEnv_of, filter_applies, source_of, finalSchema_of, skip_of,
      strict_of.
    cbn [with_envSource schema runtimeEnv strict skipValidation onError
         envSource clientPrefix isServer].
    now rewrite Hsrc, Hctx.
Qed.

Lemma createEnv_runtimeEnv_shields_witness :
  createEnv (with_envSource Fixtures.api_key
               (Some (Fixtures.record [("API_KEY", VString "other")])))
            Samples.node_world =
  createEnv Fixtures.api_key Fixtures.server_world.
Proof.
  apply (createEnv_runtimeEnv_shields Fixtures.api_key Fixtures.server_world
           Samples.node_world (Fixtures.record [("API_KEY", VString "secret")]));
    reflexivity.
Defined.

Lemma createEnv_outcome_ext (o1 o2 : CreateEnvOptions) (w1 w2 : World) :
  guard_violation o1 w1 = guard_violation o2 w2 ->
  skip_of o1 = skip_of o2 ->
  finalSchema_of o1 = finalSchema_of o2 ->
  onError o1 = onError o2 ->
  filteredEnv_of o1 w1 = filteredEnv_of o2 w2 ->
  outcome (createEnv o1 w1) = outcome (createEnv o2 w2) /\
  validations (trace (createEnv o1 w1)) = validations (trace (createEnv o2 w2)).
Proof.
  intros Hg Hs Hf Hh He. split.
  - destruct (guard_violation o2 w2) eqn:Hg2.
    + now rewrite (createEnv_guarded o1 w1 Hg), (createEnv_guarded o2 w2 Hg2).
    + rewrite (createEnv_outcome o1 w1 Hg), (createEnv_outcome o2 w2 Hg2).
      unfold validated. now rewrite Hs, Hf, Hh, He.
  - rewrite !createEnv_validations. now rewrite Hg, Hs, Hf, He.
Qed.

(** X12.  Without [runtimeEnv] and [envSource] the variables are taken
    from [process.env] if the world has one, else from [import.meta.env] if
    it has one, else from an empty object: the call ends, and validates,
    exactly as if that object had been passed as [envSource]. *)
Theorem createEnv_default_source (opts : CreateEnvOptions) (w : World) :
  let fallback :=
    match process_env w with
    | Some env => env
    | None =>
        match import_meta_env w with
        | Some env => env
        | None => emptyObj
        end
    end in
  outcome (createEnv (without_source opts) w) =
    outcome (createEnv (with_envSource (without_source opts) (Some fallback)) w) /\
  validations (trace (createEnv (without_source opts) w)) =
    validations (trace (createEnv (with_envSource (without_source opts)
                                     (Some fallback)) w)) /\
  trace (createEnv (with_envSource (without_source opts) (Some fallback)) w) =
    filter (fun ev => match ev with EvGetDefaultEnvSource => false | _ => true end)
           (trace (createEnv (without_source opts) w)).
Proof.
  intros fallback.
  destruct (createEnv_outcome_ext (without_source opts)
              (with_envSource (without_source opts) (Some fallback)) w w)
    as [Hout Hval]; try reflexivity.
  split; [exact Hout|]. split; [exact Hval|].
  set (o1 := without_source opts).
  set (o2 := with_envSource o1 (Some fallback)).
  assert (Hg : guard_violation o2 w = guard_violation o1 w) by reflexivity.
  destruct (guard_violation o1 w) eqn:Hg1.
  - now rewrite (createEnv_guarded o2 w Hg), (createEnv_guarded o1 w Hg1).
  - rewrite (createEnv_unfold o2 w Hg), (createEnv_unfold o1 w Hg1).
    unfold trace. cbn [fst].
    change (resolve_calls o2) with (@nil Event).
    change (resolve_calls o1) with [EvGetDefaultEnvSource].
    change (guard_calls o2) with (guard_calls o1).
    change (filter_calls o2 w) with (filter_calls o1 w).
    change (skip_of o2) with (skip_of o1).
    change (validate_calls o2 w) with (validate_calls o1 w).
    rewrite !filter_app. cbn [filter app].
    assert (Hkeep : forall t, (forall ev, In ev t -> ev <> EvGetDefaultEnvSource) ->
              filter (fun ev => match ev with
                                | EvGetDefaultEnvSource => false
                                | _ => true
                                end) t = t).
    { induction t as [|ev t IH]; intros Hall; simpl; [reflexivity|].
      destruct ev; try (f_equal; apply IH; intros ev' Hin; apply Hall; now right).
      exfalso. apply (Hall EvGetDefaultEnvSource); [now left|reflexivity]. }
    rewrite (Hkeep (guard_calls o1)), (Hkeep (filter_calls o1 w)),
      (Hkeep (if skip_of o1 then [] else validate_calls o1 w)).
    + reflexivity.
    + destruct (skip_of o1); [intros ev []|].
      unfold validate_calls. intros ev [<-|Hin]; [discriminate|].
      destruct (safeParse _ _); [destruct Hin|].
      destruct (onError o1); [|destruct Hin].
      destruct Hin as [<-|[]]. discriminate.
    + unfold filter_calls. destruct (clientPrefix o1) as [p|]; [|intros ev []].
      destruct (truthy_string p); [|intros ev []].
      intros ev [<-|Hin]; [discriminate|].
      destruct (filter_applies o1 w); [|destruct Hin].
      destruct Hin as [<-|[]]. discriminate.
    + unfold guard_calls. destruct (is_true (isServer o1)); [|intros ev []].
      intros ev [<-|[]]. discriminate.
Qed.

Example default_source_prefers_process_env :
  outcome (createEnv (without_source Fixtures.api_key) Samples.node_world) =
  Returns (VObject true [("API_KEY", VString "from-process")]).
Proof. reflexivity. Qed.

(** X13.  Declaring the context the call really runs in changes nothing:
    [isServer: true] on the server, and [isServer: false] on the client,
    give the outcome and the validated input of the call without
    [isServer]. *)
Theorem createEnv_isServer_matching_context
    (opts : CreateEnvOptions) (w : World) :
  outcome (createEnv (with_isServer opts (Some (negb (client_context w)))) w) =
    outcome (createEnv (with_isServer opts None) w) /\
  validations
    (trace (createEnv (with_isServer opts (Some (negb (client_context w)))) w)) =
    validations (trace (createEnv (with_isServer opts None) w)).
Proof.
  apply createEnv_outcome_ext; try reflexivity.
  - unfold guard_violation. cbn [with_isServer isServer].
    now destruct (client_context w).
  - unfold filteredEnv_of, filter_applies, source_of.
    cbn [with_isServer isServer clientPrefix runtimeEnv envSource].
    now destruct (client_context w).
Qed.

(* ================================================================== *)
(** * Further properties: the report text *)
(* ================================================================== *)

Lemma string_append_assoc (a b c : string) :
  ((a ++ b) ++ c = a ++ (b ++ c))%string.
Proof. induction a as [|ch a IH]; simpl; [reflexivity|now rewrite IH]. Qed.

Lemma concat_app_nonempty (sep x y : string) (xs ys : list string) :
  String.concat sep ((x :: xs) ++ (y :: ys)) =
  (String.concat sep (x :: xs) ++ sep ++ String.concat sep (y :: ys))%string.
Proof.
  revert x. induction xs as [|x' xs IH]; intros x.
  - reflexivity.
  - change (String.concat sep ((x :: x' :: xs) ++ y :: ys))
      with (x ++ sep ++ String.concat sep ((x' :: xs) ++ y :: ys))%string.
    rewrite IH.
    change (String.concat sep (x :: x' :: xs))
      with (x ++ sep ++ String.concat sep (x' :: xs))%string.
    now rewrite !string_append_assoc.
Qed.

(** X14.  The report of an error is built issue by issue: for two
    non-empty lists of issues, the text for their concatenation is the text
    for the first, a newline, and the text for the second; and an error
    without issues gives the empty text. *)
Theorem defaultFormatZodError_app
    (i j : ZodIssue) (is' js : list ZodIssue) :
  defaultFormatZodError (mkZodError ((i :: is') ++ (j :: js))) =
    (defaultFormatZodError (mkZodError (i :: is')) ++ nl ++
     defaultFormatZodError (mkZodError (j :: js)))%string /\
  defaultFormatZodError (mkZodError []) = "".
Proof.
  split; [|reflexivity].
  unfold defaultFormatZodError. cbn [issues].
  rewrite map_app. cbn [map]. apply concat_app_nonempty.
Qed.

(* ================================================================== *)
(** * Further properties: the earlier [createEnv] *)
(* ================================================================== *)


Example part002_returns_unfrozen :
  outcome (Part002.createEnv Samples.api_key_part002) =
    Returns (VObject false [("API_KEY", VString "secret")]) /\
  outcome (createEnv (of_part002 Samples.api_key_part002) Fixtures.browser_world) =
    Returns (VObject true [("API_KEY", VString "secret")]).
Proof. split; reflexivity. Qed.

(* ================================================================== *)
(** * Further properties: the test helpers *)
(* ================================================================== *)

Lemma set_window_restore (w : World) (v : value) :
  TestUtils.set_window (TestUtils.set_window w v) (window w) = w.
Proof. now destruct w. Qed.

(** X16.  Inside [mockBrowserEnvironment] a [createEnv] call with
    [isServer: true] raises the guard's security error whatever the ambient
    [window] was, and afterwards the world is as it was before.  For any
    body at all, raising or not, [window] is restored. *)
Theorem mockBrowserEnvironment_guard
    (opts : CreateEnvOptions) (w : World) :
  isServer opts = Some true ->
  TestUtils.mockBrowserEnvironment (TestUtils.calling (createEnv opts)) w =
    (w, Throws SecurityViolation) /\
  (forall fn : TestUtils.Body,
     window (fst (TestUtils.mockBrowserEnvironment fn w)) = window w).
Proof.
  intros Hs. split; [|reflexivity].
  unfold TestUtils.mockBrowserEnvironment, TestUtils.calling. cbn [fst snd].
  rewrite set_window_restore. f_equal.
  rewrite createEnv_guarded; [reflexivity|].
  apply guard_violation_iff. split; [exact Hs|reflexivity].
Qed.

Lemma mockBrowserEnvironment_guard_witness :
  TestUtils.mockBrowserEnvironment
    (TestUtils.calling (createEnv Fixtures.server_only)) Samples.node_world =
  (Samples.node_world, Throws SecurityViolation).
Proof.
  apply (mockBrowserEnvironment_guard Fixtures.server_only Samples.node_world).
  reflexivity.
Defined.

(** X17.  Inside [mockServerEnvironment] a [createEnv] call never raises
    the guard's security error, whatever its options and whatever the
    ambient [window] was (a browser included); afterwards the world is as
    it was before. *)
Theorem mockServerEnvironment_no_guard
    (opts : CreateEnvOptions) (w : World) :
  fst (TestUtils.mockServerEnvironment (TestUtils.calling (createEnv opts)) w) = w /\
  match snd (TestUtils.mockServerEnvironment
               (TestUtils.calling (createEnv opts)) w) with
  | Throws SecurityViolation => False
  | _ => True
  end.
Proof.
  unfold TestUtils.mockServerEnvironment, TestUtils.calling. cbn [fst snd].
  split; [apply set_window_restore|].
  set (w1 := TestUtils.set_window w VUndefined).
  assert (Hg : guard_violation opts w1 = false).
  { unfold guard_violation. apply andb_false_r. }
  pose proof (createEnv_unguarded_not_security opts w1 Hg) as H.
  destruct (outcome (createEnv opts w1)) as [v|[| |]]; try exact I.
  now apply H.
Qed.

Lemma with_prefix_fold_set (p : string) (es acc : Props) :
  (forall k, In k (keys es) -> startsWith k p = false) ->
  with_prefix p (fold_left (fun a e => JS.set (fst e) (snd e) a) es acc) =
  with_prefix p acc.
Proof.
  revert acc. induction es as [|[k v] t IH]; intros acc Hall; simpl.
  - reflexivity.
  - rewrite IH.
    + apply with_prefix_set. apply Hall. now left.
    + intros k' Hin. apply Hall. now right.
Qed.

(** X18.  [createRuntimeEnvWithExtras] builds a fresh, unfrozen object
    with pairwise distinct keys in which a key has the value given in
    [extras] if [extras] has the key, and the value given in [env]
    otherwise. *)
Theorem createRuntimeEnvWithExtras_lookup (env extras : Obj) (k : string) :
  wf (props env) -> wf (props extras) ->
  frozen (TestUtils.createRuntimeEnvWithExtras env extras) = false /\
  wf (props (TestUtils.createRuntimeEnvWithExtras env extras)) /\
  get k (props (TestUtils.createRuntimeEnvWithExtras env extras)) =
    match get k (props extras) with
    | Some v => Some v
    | None => get k (props env)
    end.
Proof.
  intros He Hx. unfold TestUtils.createRuntimeEnvWithExtras. cbn [frozen props].
  split; [reflexivity|]. split.
  - apply wf_fold_set. constructor.
  - rewrite get_fold_set, rev_app_distr, get_app.
    rewrite (get_rev_wf k _ Hx), (get_rev_wf k _ He).
    destruct (get k (props extras)); [reflexivity|].
    now destruct (get k (props env)).
Qed.

Lemma createRuntimeEnvWithExtras_lookup_witness :
  get "SECRET_KEY"
      (props (TestUtils.createRuntimeEnvWithExtras
                (Fixtures.record [("VITE_API_URL", VString "https://api.example.com")])
                (Fixtures.record [("SECRET_KEY", VString "should-be-filtered")]))) =
  Some (VString "should-be-filtered").
Proof.
  apply (createRuntimeEnvWithExtras_lookup
           (Fixtures.record [("VITE_API_URL", VString "https://api.example.com")])
           (Fixtures.record [("SECRET_KEY", VString "should-be-filtered")])
           "SECRET_KEY");
    repeat constructor; simpl; intuition discriminate.
Defined.

(** X19.  Extras that lack the prefix are invisible where the filter
    applies: with a non-empty prefix, on the client or with
    [isServer: false], a call on [createRuntimeEnvWithExtras(env, extras)]
    ends as the call on [env] alone and hands the schema the same input,
    however many unprefixed extras there are. *)
Theorem createEnv_ignores_unprefixed_extras
    (opts : CreateEnvOptions) (w : World) (p : string) (env extras : Obj) :
  clientPrefix opts = Some p ->
  truthy_string p = true ->
  client_context w || is_false (isServer opts) = true ->
  wf (props env) ->
  (forall k, In k (keys (props extras)) -> startsWith k p = false) ->
  outcome (createEnv (with_runtimeEnv opts
                        (TestUtils.createRuntimeEnvWithExtras env extras)) w) =
    outcome (createEnv (with_runtimeEnv opts env) w) /\
  validations
    (trace (createEnv (with_runtimeEnv opts
                         (TestUtils.createRuntimeEnvWithExtras env extras)) w)) =
    validations (trace (createEnv (with_runtimeEnv opts env) w)).
Proof.
  intros Hp Ht Hctx Hwf Hextras.
  apply createEnv_outcome_ext; try reflexivity.
  unfold filteredEnv_of, filter_applies, source_of.
  cbn [with_runtimeEnv clientPrefix isServer runtimeEnv].
  rewrite Hp, Ht, Hctx. cbn [andb]. f_equal.
  unfold TestUtils.createRuntimeEnvWithExtras. cbn [props].
  rewrite fold_left_app, (with_prefix_fold_set p _ _ Hextras).
  now rewrite (fold_set_nodup (props env) []).
Qed.

Lemma createEnv_ignores_unprefixed_extras_witness :
  outcome (createEnv
             (with_runtimeEnv Fixtures.client_filtered
                (TestUtils.createRuntimeEnvWithExtras
                   (Fixtures.record [("VITE_API_URL", VString "https://api.example.com")])
                   (Fixtures.record [("SECRET_KEY", VString "should-be-filtered")])))
             Fixtures.browser_world) =
  outcome (createEnv
             (with_runtimeEnv Fixtures.client_filtered
                (Fixtures.record [("VITE_API_URL", VString "https://api.example.com")]))
             Fixtures.browser_world).
Proof.
  apply (createEnv_ignores_unprefixed_extras Fixtures.client_filtered
           Fixtures.browser_world "VITE_").
  - reflexivity.
  - reflexivity.
  - reflexivity.
  - repeat constructor; simpl; intuition discriminate.
  - intros k [<-|[]]. reflexivity.
Defined.
